(** * compareDatasets.py: a shallow embedding and its properties

    The development follows [src/compareDatasets.py] function by function:
    [list_dirs], [load_pairs], [choose_from_list], [discover],
    [resolve_dataset_path], [ensure_file] and [main].

    Conventions of the embedding.
    - A Python [str] is a [string]; each 8-bit character stands for the
      Unicode code point of the same number (U+0000 to U+00FF).  Code
      points above U+00FF are not represented.
    - A parsed JSON document is a [json] tree.  Number literals with a
      fraction or an exponent (Python floats) are not represented.
    - The file system is a read-only tree of directories and readable
      regular files; a path is the list of its segments below the root,
      already absolute and free of [.], [..] and symbolic links, and each
      segment is a plain, non-empty name.
    - [json.load] is the library's: a regular file carries what the
      decoder makes of it, the document or the diagnostic of
      [JSONDecodeError].
    - [sys.exit(msg)] is the outcome [Exit msg]; an exception that no
      handler catches is the outcome [Raise e].  Both end the process with
      exit status 1.
    - Standard input is the list of the lines still to be read, standard
      output the list of the texts written so far. *)

From Stdlib Require Import Ascii ZArith NArith Bool Lia.
From Stdlib Require String DecimalString DecimalNat.
From stdpp Require Import base decidable option list sets gmap strings sorting.

Set Warnings "-clear-no-such-hyp".

(* ================================================================== *)
(** * Outcomes of a call *)

Definition path := list string.

Inductive exn :=
| FileNotFoundError (p : path)
| NotADirectoryError (p : path)
| IsADirectoryError (p : path)
| JSONDecodeError (diag : string)
| TypeError
| ValueError
| IndexError
| EOFError.

Inductive outcome (A : Type) :=
| Ok (a : A)
| Raise (e : exn)
| Exit (msg : string).
Arguments Ok {A} a.
Arguments Raise {A} e.
Arguments Exit {A} msg.

(** The status the process ends with when [main] finishes with this
    outcome. *)
Definition exit_status {A} (o : outcome A) : Z :=
  match o with
  | Ok _ => 0
  | Raise _ | Exit _ => 1
  end.

Definition obind {A B} (o : outcome A) (k : A -> outcome B) : outcome B :=
  match o with
  | Ok a => k a
  | Raise e => Raise e
  | Exit m => Exit m
  end.

(* ================================================================== *)
(** * JSON documents and the keys of a Python set *)

#[warnings="-register-all"]
Inductive json :=
| JNull
| JBool (b : bool)
| JInt (n : Z)
| JString (s : string)
| JArray (xs : list json)
| JObject (members : list (string * json)).

(** [json.load] builds a dict by inserting the members of an object in
    document order, so the last member with a given name wins. *)
Fixpoint dict_get (k : string) (members : list (string * json)) : option json :=
  match members with
  | [] => None
  | (k', v) :: rest =>
      match dict_get k rest with
      | Some w => Some w
      | None => if String.eqb k k' then Some v else None
      end
  end.

(** [k in d] *)
Definition dict_has (k : string) (members : list (string * json)) : bool :=
  match dict_get k members with Some _ => true | None => false end.

(** The keys of the dict, each once, in order of first insertion. *)
Fixpoint dict_keys (members : list (string * json)) : list string :=
  match members with
  | [] => []
  | (k, _) :: rest =>
      k :: List.filter (fun k' => negb (String.eqb k k')) (dict_keys rest)
  end.

(** What a hashable scalar is as a member of a set.  [True == 1] and
    [False == 0] with equal hashes, so a boolean is the same key as the
    integer. *)
Inductive atom :=
| ANone
| ANum (n : Z)
| AStr (s : string).

#[global] Instance atom_eq_dec : EqDecision atom.
Proof. solve_decision. Defined.

Definition atom_encode (a : atom) : unit + (Z + string) :=
  match a with
  | ANone => inl tt
  | ANum n => inr (inl n)
  | AStr s => inr (inr s)
  end.

Definition atom_decode (x : unit + (Z + string)) : atom :=
  match x with
  | inl _ => ANone
  | inr (inl n) => ANum n
  | inr (inr s) => AStr s
  end.

#[global] Instance atom_countable : Countable atom.
Proof.
  apply (inj_countable' atom_encode atom_decode).
  by intros [].
Defined.

(** [hash(v)]: lists and dicts are unhashable. *)
Definition py_hash (v : json) : option atom :=
  match v with
  | JNull => Some ANone
  | JBool b => Some (ANum (if b then 1 else 0))
  | JInt n => Some (ANum n)
  | JString s => Some (AStr s)
  | JArray _ | JObject _ => None
  end.

(** A Pair Key is the tuple [(entry["aCommit"], entry["name"])]. *)
Definition pair_key : Type := atom * atom.
Abbreviation dataset := (gset pair_key).

(** [iter(data)] for the value [json.load] returned. *)
Definition py_iter (data : json) : outcome (list json) :=
  match data with
  | JArray xs => Ok xs
  | JObject members => Ok (map JString (dict_keys members))
  | JString s => Ok (map (fun c => JString (String c EmptyString)) (String.list_ascii_of_string s))
  | JNull | JBool _ | JInt _ => Raise TypeError
  end.

(** The filter of the comprehension together with the two subscripts:
    [isinstance(entry, dict) and "aCommit" in entry and "name" in entry]. *)
Definition entry_fields (entry : json) : option (json * json) :=
  match entry with
  | JObject members =>
      if dict_has "aCommit" members && dict_has "name" members then
        match dict_get "aCommit" members, dict_get "name" members with
        | Some a, Some n => Some (a, n)
        | _, _ => None
        end
      else None
  | _ => None
  end.

(** The set comprehension, one entry at a time; hashing the tuple raises
    [TypeError] when a component is a list or a dict. *)
Fixpoint collect (entries : list json) (acc : dataset) : outcome dataset :=
  match entries with
  | [] => Ok acc
  | entry :: rest =>
      match entry_fields entry with
      | None => collect rest acc
      | Some (a, n) =>
          match py_hash a, py_hash n with
          | Some ka, Some kn => collect rest ({[ (ka, kn) ]} ∪ acc)
          | _, _ => Raise TypeError
          end
      end
  end.

(* ================================================================== *)
(** * The three result sets (lines 129 to 131 of [main]) *)

Record comparison_result := Comparison {
  missing : dataset;
  extra : dataset;
  matched : dataset
}.

Definition diff_sets (gold_set mine_set : dataset) : comparison_result :=
  {| missing := gold_set ∖ mine_set;
     extra := mine_set ∖ gold_set;
     matched := gold_set ∩ mine_set |}.

(* ================================================================== *)
(** * Strings *)

Definition nl : string := String "010"%char EmptyString.

(** [str(n)] for a non-negative integer *)
Definition str_of_nat (n : nat) : string :=
  DecimalString.NilEmpty.string_of_uint (Nat.to_uint n).

(** Whitespace as [str.strip] sees it, below U+0100. *)
Definition isspace_char (c : ascii) : bool :=
  let n := N_of_ascii c in
  ((9 <=? n) && (n <=? 13) || (28 <=? n) && (n <=? 32) || (n =? 133) || (n =? 160))%N.

Fixpoint lstrip (s : string) : string :=
  match s with
  | EmptyString => EmptyString
  | String c s' => if isspace_char c then lstrip s' else s
  end.

Definition rstrip (s : string) : string := String.rev (lstrip (String.rev s)).

Definition strip (s : string) : string := rstrip (lstrip s).

(** Characters with Unicode property Numeric_Type Digit or Decimal, below
    U+0100: the ASCII digits and the superscripts two, three and one
    (U+00B2, U+00B3, U+00B9). *)
Definition isdigit_char (c : ascii) : bool :=
  let n := N_of_ascii c in
  ((48 <=? n) && (n <=? 57) || (n =? 178) || (n =? 179) || (n =? 185))%N.

(** [str.isdigit]: every character is a digit and there is at least one. *)
Definition isdigit (s : string) : bool :=
  match s with
  | EmptyString => false
  | String _ _ => forallb isdigit_char (String.list_ascii_of_string s)
  end.

(** The decimal digits [int] accepts, below U+0100: the ASCII digits. *)
Definition decimal_value (c : ascii) : option N :=
  let n := N_of_ascii c in
  if ((48 <=? n) && (n <=? 57))%N then Some (n - 48)%N else None.

Fixpoint int_digits (s : string) (acc : N) : option N :=
  match s with
  | EmptyString => Some acc
  | String c s' =>
      match decimal_value c with
      | Some d => int_digits s' (10 * acc + d)%N
      | None => None
      end
  end.

(** The default of [sys.get_int_max_str_digits()]. *)
Definition int_max_str_digits : nat := 4300.

(** [int(s)] for a string without sign, underscore or blank, as every
    string [isdigit] accepts is. A character that is not a decimal digit,
    or more digits than the interpreter converts, raise [ValueError]. *)
Definition int (s : string) : outcome N :=
  match s with
  | EmptyString => Raise ValueError
  | String _ _ =>
      match int_digits s 0%N with
      | Some n =>
          if (int_max_str_digits <? String.length s)%nat then Raise ValueError
          else Ok n
      | None => Raise ValueError
      end
  end.

(** Strings made of ASCII digits only, as [str] prints a natural number. *)
Definition ascii_digits (s : string) : bool :=
  forallb (fun c => match decimal_value c with Some _ => true | None => false end)
    (String.list_ascii_of_string s).

(** Order of [str] values: lexicographic on code points. *)
Definition str_le (s t : string) : Prop := String.leb s t = true.

#[global] Instance str_le_dec (s t : string) : Decision (str_le s t).
Proof. unfold str_le. apply _. Defined.

(** [sorted(names)] for a list of [str]. *)
Definition sorted (names : list string) : list string := merge_sort str_le names.

(* ================================================================== *)
(** * The file system *)

(** What [json.load] makes of a regular file: the document, or the
    decoder's diagnostic. *)
Inductive decoded :=
| Decoded (data : json)
| Undecodable (diag : string).

#[warnings="-register-all"]
Inductive node :=
| File (body : decoded)
| Dir (entries : list (string * node)).

Inductive stat_result :=
| Found (n : node)
| ENOENT
| ENOTDIR.

Fixpoint dir_entry (name : string) (entries : list (string * node)) : option node :=
  match entries with
  | [] => None
  | (k, n) :: rest => if String.eqb name k then Some n else dir_entry name rest
  end.

Fixpoint stat (n : node) (p : path) : stat_result :=
  match p with
  | [] => Found n
  | seg :: rest =>
      match n with
      | File _ => ENOTDIR
      | Dir entries =>
          match dir_entry seg entries with
          | None => ENOENT
          | Some child => stat child rest
          end
      end
  end.

(** [str(path)] *)
Definition path_str (p : path) : string := "/" +:+ String.concat "/" p.

(** [path.parent]; the root is its own parent. *)
Definition parent (p : path) : path := removelast p.

(** [root / name] for a plain name. *)
Definition join (p : path) (name : string) : path := p ++ [name].

(** [path.resolve()]: paths are kept absolute and normalised. *)
Definition resolve (p : path) : path := p.

Definition json_load (body : decoded) : outcome json :=
  match body with
  | Decoded data => Ok data
  | Undecodable diag => Raise (JSONDecodeError diag)
  end.

(* ================================================================== *)
(** * The console *)

Record console := Console {
  pending : list string;   (* lines of standard input not read yet *)
  printed : list string    (* texts written to standard output *)
}.

Definition M (A : Type) : Type := console -> outcome A * console.

Definition ret {A} (a : A) : M A := fun c => (Ok a, c).

Definition bind {A B} (m : M A) (k : A -> M B) : M B := fun c =>
  match m c with
  | (Ok a, c') => k a c'
  | (Raise e, c') => (Raise e, c')
  | (Exit msg, c') => (Exit msg, c')
  end.

Definition lift {A} (o : outcome A) : M A := fun c => (o, c).

Definition sys_exit {A} (msg : string) : M A := lift (Exit msg).

Definition print (text : string) : M unit := fun c =>
  (Ok tt, {| pending := pending c; printed := printed c ++ [text] |}).

Notation "'let*' x ':=' m 'in' k" := (bind m (fun x => k))
  (at level 10, x binder, m at level 100, k at level 200).

(* ================================================================== *)
(** * The functions of the script *)

Section Script.

(** The file system the script runs on. *)
Variable fs : node.

(** [p.exists()] *)
Definition path_exists (p : path) : bool :=
  match stat fs p with
  | Found _ => true
  | ENOENT | ENOTDIR => false
  end.

(** [p.is_dir()] *)
Definition is_dir (p : path) : bool :=
  match stat fs p with
  | Found (Dir _) => true
  | _ => false
  end.

(** [p.iterdir()], in the order the system lists the entries. *)
Definition iterdir (p : path) : outcome (list (string * node)) :=
  match stat fs p with
  | Found (Dir entries) => Ok entries
  | Found (File _) => Raise (NotADirectoryError p)
  | ENOENT => Raise (FileNotFoundError p)
  | ENOTDIR => Raise (NotADirectoryError p)
  end.

(** [p.open()] *)
Definition open (p : path) : outcome decoded :=
  match stat fs p with
  | Found (File body) => Ok body
  | Found (Dir _) => Raise (IsADirectoryError p)
  | ENOENT => Raise (FileNotFoundError p)
  | ENOTDIR => Raise (NotADirectoryError p)
  end.

(** The test of the comprehension reads [p.is_dir()], with the directory
    [p] and not the entry [d]. *)
Definition list_dirs (p : path) : outcome (list string) :=
  obind (iterdir p) (fun ds =>
    Ok (sorted (map fst
      (List.filter (fun d => is_dir p && negb (String.prefix "." (fst d))) ds)))).

Definition load_pairs (json_path : path) : outcome dataset :=
  match obind (open json_path) json_load with
  | Raise (FileNotFoundError _) =>
      Exit ("[ERR] File not found: " +:+ path_str json_path)
  | Raise (JSONDecodeError e) =>
      Exit ("[ERR] Invalid JSON in " +:+ path_str json_path +:+ ": " +:+ e)
  | Raise e => Raise e
  | Exit msg => Exit msg
  | Ok data => obind (py_iter data) (fun entries => collect entries ∅)
  end.

(** The [while True] loop of [choose_from_list].  Each turn reads one line,
    so the recursion is on the lines left on standard input; [input] raises
    [EOFError] when there is none. *)
Fixpoint choose_loop (items : list string) (lines : list string)
    (out : list string) : outcome string * console :=
  let prompt := "Enter number (1-" +:+ str_of_nat (length items) +:+ "): " in
  match lines with
  | [] => (Raise EOFError, Console [] (out ++ [prompt]))
  | line :: rest =>
      let choice := strip line in
      if isdigit choice then
        match int choice with
        | Ok idx =>
            if ((1 <=? idx) && (idx <=? N.of_nat (length items)))%N then
              match items !! (N.to_nat idx - 1)%nat with
              | Some it => (Ok it, Console rest (out ++ [prompt]))
              | None => (Raise IndexError, Console rest (out ++ [prompt]))
              end
            else
              choose_loop items rest (out ++ [prompt; "Invalid choice, try again."])
        | Raise e => (Raise e, Console rest (out ++ [prompt]))
        | Exit msg => (Exit msg, Console rest (out ++ [prompt]))
        end
      else
        choose_loop items rest (out ++ [prompt; "Invalid choice, try again."])
  end.

(** The lines of the menu, numbered from [i]. *)
Fixpoint menu (i : nat) (items : list string) : list string :=
  match items with
  | [] => []
  | it :: rest => ("  " +:+ str_of_nat i +:+ ") " +:+ it) :: menu (S i) rest
  end.

Definition choose_from_list (title : string) (items : list string) : M string :=
  match items with
  | [] => sys_exit ("[ERR] No options found for " +:+ title +:+ ".")
  | _ :: _ => fun c =>
      choose_loop items (pending c)
        (printed c ++ [nl +:+ "Select " +:+ title +:+ ":"] ++ menu 1 items)
  end.

Definition discover (root : path) (student owner repo : option string)
    (side_label : string) : M (string * string * string) :=
  let* student :=
    match student with
    | None =>
        let* students := lift (list_dirs root) in
        choose_from_list (side_label +:+ " student (miner)") students
    | Some s => ret s
    end in
  let owner_dir := join root student in
  let* owner :=
    match owner with
    | None =>
        let* owners := lift (list_dirs owner_dir) in
        choose_from_list (side_label +:+ " repo owner/organization") owners
    | Some o => ret o
    end in
  let leaf_root := join owner_dir owner in
  let* repo :=
    match repo with
    | None =>
        let* repos := lift (list_dirs leaf_root) in
        choose_from_list (side_label +:+ " repository name") repos
    | Some r => ret r
    end in
  ret (student, owner, repo).

Definition resolve_dataset_path (root : path) (student owner repo : string) : path :=
  resolve (join (join (join (join root student) owner) repo) "dataset.json").

Definition ensure_file (p : path) : outcome unit :=
  if negb (path_exists p) then
    let parent := parent p in
    obind
      (if path_exists parent then
         obind (iterdir parent) (fun ps =>
           let contents := String.concat (nl +:+ "  ") (sorted (map fst ps)) in
           Ok (nl +:+ "[HINT] Contents of " +:+ path_str parent +:+ ":"
                  +:+ nl +:+ "  " +:+ contents))
       else Ok "")
      (fun hint => Exit ("[ERR] File not found: " +:+ path_str p +:+ hint))
  else Ok tt.

(** The namespace [parse_args] returns. *)
Record args := Args {
  gold : option path;
  gold_root : path;
  gold_student : option string;
  gold_owner : option string;
  gold_repo : option string;
  mine : option path;
  mine_root : path;
  mine_student : option string;
  mine_owner : option string;
  mine_repo : option string;
  positional : list string
}.

(** [a or b] where [a] is [None] or a [str]: the empty string is false. *)
Definition py_or (a b : option string) : option string :=
  match a with
  | Some (String _ _) => a
  | Some EmptyString | None => b
  end.

(** [main] from the parsed arguments to the three result sets (lines 95
    to 131); the report printed after them is not part of the embedding. *)
Definition main (a : args) : M comparison_result :=
  let pos := positional a in
  let mine_student := py_or (mine_student a) (pos !! 0%nat) in
  let mine_owner := py_or (mine_owner a) (pos !! 1%nat) in
  let mine_repo := py_or (mine_repo a) (pos !! 2%nat) in
  let* gold_path :=
    match gold a with
    | Some g => ret (resolve g)
    | None =>
        let gold_root := resolve (gold_root a) in
        if negb (path_exists gold_root) then
          sys_exit ("[ERR] GOLD root not found: " +:+ path_str gold_root)
        else
          let* '(gs, go, gr) :=
            discover gold_root (gold_student a) (gold_owner a) (gold_repo a) "GOLD" in
          ret (resolve_dataset_path gold_root gs go gr)
    end in
  let* mine_path :=
    match mine a with
    | Some m => ret (resolve m)
    | None =>
        let mine_root := resolve (mine_root a) in
        if negb (path_exists mine_root) then
          sys_exit ("[ERR] MINE root not found: " +:+ path_str mine_root)
        else
          let* '(ms, mo, mr) :=
            discover mine_root mine_student mine_owner mine_repo "MINE" in
          ret (resolve_dataset_path mine_root ms mo mr)
    end in
  let* _ := print ("[INFO] GOLD: " +:+ path_str gold_path) in
  let* _ := print ("[INFO] MINE: " +:+ path_str mine_path) in
  let* _ := lift (ensure_file gold_path) in
  let* _ := lift (ensure_file mine_path) in
  let* gold_set := lift (load_pairs gold_path) in
  let* mine_set := lift (load_pairs mine_path) in
  let missing := gold_set ∖ mine_set in
  let extra := mine_set ∖ gold_set in
  let matched := gold_set ∩ mine_set in
  ret (Comparison missing extra matched).

End Script.

(** The summary block of [main] (lines 133 to 138), for the two sets
    loaded at lines 126 and 127.  The two listings that follow it in the
    script call [sorted] on tuples of arbitrary JSON scalars and are not
    part of the embedding. *)
Definition summary (gold_set mine_set : dataset) : M unit :=
  let missing := gold_set ∖ mine_set in
  let extra := mine_set ∖ gold_set in
  let matched := gold_set ∩ mine_set in
  let* _ := print (nl +:+ "=== Summary ===") in
  let* _ := print ("Total in GOLD:         " +:+ str_of_nat (size gold_set)) in
  let* _ := print ("Total in MINE:         " +:+ str_of_nat (size mine_set)) in
  let* _ := print ("Total matched:         " +:+ str_of_nat (size matched)) in
  let* _ := print ("Missing (GOLD only):   " +:+ str_of_nat (size missing)) in
  print ("Extra   (MINE only):   " +:+ str_of_nat (size extra)).

(* ================================================================== *)
(** * Sample inputs *)

Definition entry (commit name : string) : json :=
  JObject [("aCommit", JString commit); ("name", JString name)].

(** A root with one student directory, one regular file and one hidden
    directory. *)
Definition sample_fs : node :=
  Dir [("repoMinedTarget",
        Dir [("zoe", Dir []);
             ("README.md", File (Undecodable "Expecting value: line 1 column 1 (char 0)"));
             (".git", Dir []);
             ("alice",
              Dir [("acme",
                    Dir [("widgets",
                          Dir [("dataset.json",
                                File (Decoded (JArray [entry "c1" "t1"; entry "c2" "t2"])))]);
                         ("NOTES.txt", File (Undecodable "Expecting value: line 1 column 1 (char 0)"))])])])].

(** The same directories, listed by the system in another order. *)
Definition sample_fs_reordered : node :=
  Dir [("repoMinedTarget",
        Dir [("alice",
              Dir [("acme",
                    Dir [("widgets",
                          Dir [("dataset.json",
                                File (Decoded (JArray [entry "c1" "t1"; entry "c2" "t2"])))])])]);
             (".git", Dir []);
             ("zoe", Dir []);
             ("README.md", File (Undecodable "Expecting value: line 1 column 1 (char 0)"))])].

(** One regular file holding the given document. *)
Definition one_file (name : string) (data : json) : node :=
  Dir [(name, File (Decoded data))].

(** Arguments that name both files, as [-g] and [-m] do. *)
Definition explicit_args (gold_path mine_path : path) : args :=
  {| gold := Some gold_path; gold_root := ["repoMinedTarget"];
     gold_student := None; gold_owner := None; gold_repo := None;
     mine := Some mine_path; mine_root := ["repoMinedTarget"];
     mine_student := None; mine_owner := None; mine_repo := None;
     positional := [] |}.

(** Arguments that name the MINE file and leave GOLD to the menus. *)
Definition menu_args (mine_path : path) : args :=
  {| gold := None; gold_root := ["repoMinedTarget"];
     gold_student := None; gold_owner := None; gold_repo := None;
     mine := Some mine_path; mine_root := ["repoMinedTarget"];
     mine_student := None; mine_owner := None; mine_repo := None;
     positional := [] |}.

Definition sample_dataset : path :=
  ["repoMinedTarget"; "alice"; "acme"; "widgets"; "dataset.json"].

(** A path whose last directory is in fact a regular file. *)
Definition under_a_file : path :=
  ["repoMinedTarget"; "alice"; "acme"; "NOTES.txt"; "dataset.json"].

(** The one character U+00B2, superscript two. *)
Definition superscript_two : string := String "178"%char EmptyString.

(** The scenarios of the specification: two files side by side, both
    named on the command line. *)
Definition scenario_fs (gold_data mine_data : json) : node :=
  Dir [("gold.json", File (Decoded gold_data)); ("mine.json", File (Decoded mine_data))].

Definition scenario (gold_data mine_data : json) : outcome comparison_result :=
  (main (scenario_fs gold_data mine_data)
     (explicit_args ["gold.json"] ["mine.json"]) (Console [] [])).1.

(** * Entries of a directory *)

(** [name] is an entry of the directory [dir] and does not start with a
    dot. *)
Definition visible_entry (fs : node) (dir : path) (name : string) : Prop :=
  exists entries child,
    stat fs dir = Found (Dir entries) /\
    (name, child) ∈ entries /\
    String.prefix "." name = false.

(** [main] with [-m] set to the given path. *)
Definition with_mine (a : args) (mine_path : path) : args :=
  {| gold := gold a; gold_root := gold_root a;
     gold_student := gold_student a; gold_owner := gold_owner a;
     gold_repo := gold_repo a;
     mine := Some mine_path; mine_root := mine_root a;
     mine_student := mine_student a; mine_owner := mine_owner a;
     mine_repo := mine_repo a; positional := positional a |}.

(** GOLD named with [-g], MINE given by three positional arguments. *)
Definition positional_args : args :=
  {| gold := Some sample_dataset; gold_root := ["repoMinedTarget"];
     gold_student := None; gold_owner := None; gold_repo := None;
     mine := None; mine_root := ["repoMinedTarget"];
     mine_student := None; mine_owner := None; mine_repo := None;
     positional := ["alice"; "acme"; "widgets"] |}.

(** A GOLD file that does not exist, and a MINE root that does not
    either. *)
Definition mine_root_missing_args : args :=
  {| gold := Some ["nowhere"; "dataset.json"]; gold_root := ["repoMinedTarget"];
     gold_student := None; gold_owner := None; gold_repo := None;
     mine := None; mine_root := ["mined"];
     mine_student := None; mine_owner := None; mine_repo := None;
     positional := [] |}.

Definition gold_root_missing_args : args :=
  {| gold := None; gold_root := ["mined"];
     gold_student := None; gold_owner := None; gold_repo := None;
     mine := Some sample_dataset; mine_root := ["repoMinedTarget"];
     mine_student := None; mine_owner := None; mine_repo := None;
     positional := [] |}.

(** * Shapes of an entry *)

(** A mapping that has both keys, with the values under them. *)
Definition has_both_keys (e : json) (a n : json) : Prop :=
  exists members,
    e = JObject members /\
    dict_get "aCommit" members = Some a /\
    dict_get "name" members = Some n.

(** A mapping whose commit identifier and name are both strings. *)
Definition string_entry (e : json) (commit name : string) : Prop :=
  has_both_keys e (JString commit) (JString name).

(* ================================================================== *)
(** * The order of strings *)

Lemma str_le_trans s t u : str_le s t -> str_le t u -> str_le s u.
Proof.
  unfold str_le, String.leb. revert t u.
  induction s as [|a s IH]; intros [|b t] [|c u]; simpl; try done.
  unfold Ascii.compare.
  destruct (N.compare_spec (N_of_ascii a) (N_of_ascii b));
    destruct (N.compare_spec (N_of_ascii b) (N_of_ascii c));
    destruct (N.compare_spec (N_of_ascii a) (N_of_ascii c));
    try done; try lia.
  apply IH.
Qed.

#[global] Instance str_le_transitive : Transitive str_le.
Proof. intros s t u. apply str_le_trans. Qed.

#[global] Instance str_le_total : Total str_le.
Proof. intros s t. apply String.leb_total. Qed.

#[global] Instance str_le_antisymm : AntiSymm (=) str_le.
Proof. intros s t. apply String.leb_antisym. Qed.

Lemma sorted_StronglySorted names : StronglySorted str_le (sorted names).
Proof. apply StronglySorted_merge_sort; apply _. Qed.

Lemma sorted_Permutation names : sorted names ≡ₚ names.
Proof. apply merge_sort_Permutation. Qed.

(** [sorted] forgets the order its argument came in. *)
Lemma sorted_perm_eq l1 l2 : l1 ≡ₚ l2 -> sorted l1 = sorted l2.
Proof.
  intros Hp. apply (StronglySorted_unique str_le); try apply sorted_StronglySorted.
  by rewrite !sorted_Permutation.
Qed.

Lemma filter_Permutation_bool {A} (f : A -> bool) (l1 l2 : list A) :
  l1 ≡ₚ l2 -> List.filter f l1 ≡ₚ List.filter f l2.
Proof.
  induction 1 as [|x l1 l2 _ IH|x y l|l1 l2 l3 _ IH1 _ IH2]; simpl.
  - done.
  - destruct (f x); by rewrite IH.
  - destruct (f x), (f y); try done. apply perm_swap.
  - by etrans.
Qed.

(* ================================================================== *)
(** * The three result sets *)

Lemma bind_Ok {A B} (m : M A) (k : A -> M B) c b c' :
  bind m k c = (Ok b, c') ->
  exists a c1, m c = (Ok a, c1) /\ k a c1 = (Ok b, c').
Proof.
  unfold bind. destruct (m c) as [[a|e|msg] c1]; intros H; try discriminate H.
  eauto.
Qed.


(** C1. For the two loaded sets, matched is their intersection, missing
    holds the pairs of gold that are not in mine, and extra the pairs of
    mine that are not in gold. *)
Theorem diff_sets_spec (gold_set mine_set : dataset) :
  matched (diff_sets gold_set mine_set) = gold_set ∩ mine_set /\
  missing (diff_sets gold_set mine_set) = gold_set ∖ mine_set /\
  extra (diff_sets gold_set mine_set) = mine_set ∖ gold_set /\
  forall k : pair_key,
    (k ∈ matched (diff_sets gold_set mine_set) <-> k ∈ gold_set /\ k ∈ mine_set) /\
    (k ∈ missing (diff_sets gold_set mine_set) <-> k ∈ gold_set /\ k ∉ mine_set) /\
    (k ∈ extra (diff_sets gold_set mine_set) <-> k ∈ mine_set /\ k ∉ gold_set).
Proof.
  repeat split; simpl; set_solver.
Qed.

(** C4. missing and extra are disjoint, matched with missing is gold, and
    matched with extra is mine. *)
Theorem diff_sets_partition (A B : dataset) :
  missing (diff_sets A B) ∩ extra (diff_sets A B) = ∅ /\
  matched (diff_sets A B) ∪ missing (diff_sets A B) = A /\
  matched (diff_sets A B) ∪ extra (diff_sets A B) = B.
Proof.
  simpl. repeat split.
  - set_solver.
  - apply set_eq. intros k. rewrite elem_of_union, elem_of_intersection, elem_of_difference.
    destruct (decide (k ∈ B)); tauto.
  - apply set_eq. intros k. rewrite elem_of_union, elem_of_intersection, elem_of_difference.
    destruct (decide (k ∈ A)); tauto.
Qed.

(** C7. Exchanging the two sides exchanges missing and extra and leaves
    matched as it is. *)
Theorem diff_sets_swap (A B : dataset) :
  missing (diff_sets A B) = extra (diff_sets B A) /\
  extra (diff_sets A B) = missing (diff_sets B A) /\
  matched (diff_sets A B) = matched (diff_sets B A).
Proof.
  simpl. repeat split. set_solver.
Qed.

(* ================================================================== *)
(** * [list_dirs] *)

Lemma stat_dir_is_dir fs p entries :
  stat fs p = Found (Dir entries) -> is_dir fs p = true.
Proof. unfold is_dir. by intros ->. Qed.

(** On a directory, [list_dirs] returns the sorted names of all entries
    whose name does not start with a dot. *)
Lemma list_dirs_dir fs p entries :
  stat fs p = Found (Dir entries) ->
  list_dirs fs p =
    Ok (sorted (map fst
      (List.filter (fun d => negb (String.prefix "." (fst d))) entries))).
Proof.
  intros H. unfold list_dirs, iterdir. rewrite H. simpl.
  by rewrite (stat_dir_is_dir _ _ _ H).
Qed.

(** Whether an entry is a directory plays no part: a visible regular file
    is among the candidates. *)
Lemma list_dirs_keeps_files fs p entries name body :
  stat fs p = Found (Dir entries) ->
  (name, File body) ∈ entries ->
  String.prefix "." name = false ->
  exists names, list_dirs fs p = Ok names /\ name ∈ names.
Proof.
  intros H Hin Hdot. rewrite (list_dirs_dir _ _ _ H). eexists; split; [done|].
  rewrite sorted_Permutation. apply list_elem_of_In, in_map_iff.
  exists (name, File body). split; [done|].
  apply filter_In. split; [by apply list_elem_of_In|]. simpl. by rewrite Hdot.
Qed.

Lemma list_dirs_drops_hidden fs p names name :
  list_dirs fs p = Ok names -> name ∈ names -> String.prefix "." name = false.
Proof.
  unfold list_dirs, iterdir.
  destruct (stat fs p) as [[|entries]| |]; simpl; intros H; try discriminate H.
  injection H as <-. rewrite sorted_Permutation.
  intros Hin. apply list_elem_of_In, in_map_iff in Hin as ([n d] & <- & Hin).
  apply filter_In in Hin as [_ Hin]. simpl in *.
  destruct (String.prefix "." n); [|done].
  by rewrite andb_false_r in Hin.
Qed.

(** C3. The candidates of [sample_fs]'s root hold the name of a regular
    file: [README.md] is listed next to the two visible directories. *)
Theorem list_dirs_lists_regular_file :
  list_dirs sample_fs ["repoMinedTarget"] = Ok ["README.md"; "alice"; "zoe"] /\
  stat sample_fs ["repoMinedTarget"; "README.md"]
    = Found (File (Undecodable "Expecting value: line 1 column 1 (char 0)")).
Proof. split; vm_compute; reflexivity. Qed.

(** C10. The candidates of a directory come in ascending order of their
    names, and the order in which the system lists the entries does not
    change them. *)
Theorem list_dirs_sorted_deterministic fs p entries :
  stat fs p = Found (Dir entries) ->
  exists names,
    list_dirs fs p = Ok names /\
    StronglySorted str_le names /\
    forall fs' p' entries',
      stat fs' p' = Found (Dir entries') ->
      entries' ≡ₚ entries ->
      list_dirs fs' p' = Ok names.
Proof.
  intros H. rewrite (list_dirs_dir _ _ _ H). eexists. split; [done|]. split.
  - apply sorted_StronglySorted.
  - intros fs' p' entries' H' Hp. rewrite (list_dirs_dir _ _ _ H'). f_equal.
    apply sorted_perm_eq. apply fmap_Permutation. by apply filter_Permutation_bool.
Qed.

Lemma list_dirs_sorted_deterministic_witness :
  exists names,
    list_dirs sample_fs ["repoMinedTarget"] = Ok names /\
    StronglySorted str_le names /\
    forall fs' p' entries',
      stat fs' p' = Found (Dir entries') ->
      entries' ≡ₚ
        [("zoe", Dir []);
         ("README.md", File (Undecodable "Expecting value: line 1 column 1 (char 0)"));
         (".git", Dir []);
         ("alice",
          Dir [("acme",
                Dir [("widgets",
                      Dir [("dataset.json",
                            File (Decoded (JArray [entry "c1" "t1"; entry "c2" "t2"])))]);
                     ("NOTES.txt", File (Undecodable "Expecting value: line 1 column 1 (char 0)"))])])] ->
      list_dirs fs' p' = Ok names.
Proof.
  apply (list_dirs_sorted_deterministic sample_fs ["repoMinedTarget"]).
  reflexivity.
Defined.

(** The two sample file systems differ in the listing order only, and
    give the same menu. *)
Example list_dirs_reordered :
  list_dirs sample_fs_reordered ["repoMinedTarget"]
    = list_dirs sample_fs ["repoMinedTarget"].
Proof. vm_compute. reflexivity. Qed.

(* ================================================================== *)
(** * [load_pairs] *)

Lemma entry_fields_Some e a n :
  entry_fields e = Some (a, n) <-> has_both_keys e a n.
Proof.
  unfold has_both_keys, entry_fields, dict_has. split.
  - destruct e as [| | | | |members]; try done.
    destruct (dict_get "aCommit" members) as [a'|] eqn:Ea; [|done].
    destruct (dict_get "name" members) as [n'|] eqn:En; [|done].
    simpl. intros [= -> ->]. eauto.
  - intros (members & -> & -> & ->). done.
Qed.

Lemma entry_fields_None e :
  entry_fields e = None <-> ~ exists a n, has_both_keys e a n.
Proof.
  destruct (entry_fields e) as [[a n]|] eqn:E.
  - apply entry_fields_Some in E. split; [done|]. intros []. eauto.
  - split; [|done]. intros _ (a & n & H). apply entry_fields_Some in H. congruence.
Qed.

(** An entry of another shape is passed over. *)
Lemma collect_skip e rest acc :
  entry_fields e = None -> collect (e :: rest) acc = collect rest acc.
Proof. simpl. by intros ->. Qed.

Lemma collect_add e a n ka kn rest acc :
  entry_fields e = Some (a, n) -> py_hash a = Some ka -> py_hash n = Some kn ->
  collect (e :: rest) acc = collect rest ({[ (ka, kn) ]} ∪ acc).
Proof. simpl. by intros -> -> ->. Qed.

Lemma collect_app l1 l2 acc :
  collect (l1 ++ l2) acc = obind (collect l1 acc) (collect l2).
Proof.
  revert acc. induction l1 as [|e l1 IH]; intros acc; simpl; [done|].
  destruct (entry_fields e) as [[a n]|]; [|done].
  destruct (py_hash a), (py_hash n); done.
Qed.

Lemma collect_elem_of l acc s :
  collect l acc = Ok s ->
  forall k : pair_key,
    k ∈ s <->
    k ∈ acc \/
    exists e a n, e ∈ l /\ entry_fields e = Some (a, n) /\
                  py_hash a = Some k.1 /\ py_hash n = Some k.2.
Proof.
  revert acc. induction l as [|e l IH]; intros acc; simpl.
  - intros [= <-] k. split; [by left|]. intros [H|(e & a & n & H & _)]; [done|].
    by apply elem_of_nil in H.
  - destruct (entry_fields e) as [[a n]|] eqn:E.
    + destruct (py_hash a) as [ka|] eqn:Ea; [|done].
      destruct (py_hash n) as [kn|] eqn:En; [|done].
      intros H k. rewrite (IH _ H k), elem_of_union, elem_of_singleton. split.
      * intros [[->|?]|(e' & a' & n' & Hin & ?)]; [right|by left|right].
        -- exists e, a, n. by rewrite elem_of_cons; auto.
        -- exists e', a', n'. by rewrite elem_of_cons; auto.
      * intros [?|(e' & a' & n' & Hin & E' & Ha' & Hn')]; [by left; right|].
        apply elem_of_cons in Hin as [->|Hin].
        -- left; left. destruct k. simpl in *. congruence.
        -- right. eauto 10.
    + intros H k. rewrite (IH _ H k). split.
      * intros [?|(e' & a' & n' & Hin & ?)]; [by left|right].
        exists e', a', n'. by rewrite elem_of_cons; auto.
      * intros [?|(e' & a' & n' & Hin & E' & ?)]; [by left|right].
        apply elem_of_cons in Hin as [->|Hin]; [congruence|eauto 10].
Qed.

Lemma collect_total l acc :
  (forall e a n, e ∈ l -> entry_fields e = Some (a, n) ->
                 is_Some (py_hash a) /\ is_Some (py_hash n)) ->
  exists s, collect l acc = Ok s.
Proof.
  revert acc. induction l as [|e l IH]; intros acc Hl; simpl; [eauto|].
  assert (Hl' : forall e a n, e ∈ l -> entry_fields e = Some (a, n) ->
                 is_Some (py_hash a) /\ is_Some (py_hash n)).
  { intros e' a n Hin. apply Hl. by right. }
  destruct (entry_fields e) as [[a n]|] eqn:E; [|by apply IH].
  destruct (Hl e a n) as [[ka ->] [kn ->]]; [by left|done|]. by apply IH.
Qed.

Lemma collect_subseteq l acc s : collect l acc = Ok s -> acc ⊆ s.
Proof. intros H k Hk. apply (collect_elem_of _ _ _ H). by left. Qed.

(** An entry whose key is in the set already changes nothing. *)
Lemma collect_known e commit name rest acc :
  string_entry e commit name -> (AStr commit, AStr name) ∈ acc ->
  collect (e :: rest) acc = collect rest acc.
Proof.
  intros He Hin. apply entry_fields_Some in He.
  rewrite (collect_add _ _ _ _ _ _ _ He eq_refl eq_refl).
  f_equal. set_solver.
Qed.

Lemma load_pairs_decoded fs p data :
  open fs p = Ok (Decoded data) ->
  load_pairs fs p = obind (py_iter data) (fun entries => collect entries ∅).
Proof. unfold load_pairs. by intros ->. Qed.

Lemma open_one_file name data :
  open (one_file name data) [name] = Ok (Decoded data).
Proof. unfold open, one_file. simpl. by rewrite String.eqb_refl. Qed.

(** C2, as the code has it. When every mapping of the array that has both
    keys holds scalars under them, loading succeeds, and a pair is in the
    loaded set exactly when some element is a mapping with both keys whose
    values make that pair, whatever the JSON type of the values. Elements
    of any other shape are passed over. *)
Theorem load_pairs_array fs p entries :
  open fs p = Ok (Decoded (JArray entries)) ->
  (forall e a n, e ∈ entries -> has_both_keys e a n ->
                 is_Some (py_hash a) /\ is_Some (py_hash n)) ->
  exists s,
    load_pairs fs p = Ok s /\
    forall k : pair_key,
      k ∈ s <->
      exists e a n, e ∈ entries /\ has_both_keys e a n /\
                    py_hash a = Some k.1 /\ py_hash n = Some k.2.
Proof.
  intros Hopen Hscalar. rewrite (load_pairs_decoded _ _ _ Hopen). simpl.
  destruct (collect_total entries ∅) as [s Hs].
  { intros e a n Hin E. apply (Hscalar e); [done|]. by apply entry_fields_Some. }
  exists s. split; [done|]. intros k. rewrite (collect_elem_of _ _ _ Hs k). split.
  - intros [H|(e & a & n & Hin & E & Hk)]; [set_solver|].
    exists e, a, n. by rewrite <- entry_fields_Some.
  - intros (e & a & n & Hin & E & Hk). right.
    exists e, a, n. by rewrite entry_fields_Some.
Qed.

Lemma load_pairs_array_witness :
  exists s,
    load_pairs (one_file "dataset.json" (JArray [entry "c1" "t1"; JInt 7]))
      ["dataset.json"] = Ok s /\
    forall k : pair_key,
      k ∈ s <->
      exists e a n, e ∈ [entry "c1" "t1"; JInt 7] /\ has_both_keys e a n /\
                    py_hash a = Some k.1 /\ py_hash n = Some k.2.
Proof.
  apply (load_pairs_array (one_file "dataset.json" (JArray [entry "c1" "t1"; JInt 7]))
           ["dataset.json"] [entry "c1" "t1"; JInt 7]).
  - reflexivity.
  - intros e a n Hin (members & -> & Ha & Hn).
    apply elem_of_cons in Hin as [Hin|Hin].
    + unfold entry in Hin. injection Hin as ->.
      simpl in Ha, Hn. injection Ha as <-. injection Hn as <-.
      split; eexists; reflexivity.
    + apply elem_of_cons in Hin as [Hin|Hin]; [discriminate Hin|].
      by apply elem_of_nil in Hin.
Defined.

(** C2, as the claim has it, fails: a mapping whose commit identifier is
    a number and whose name is null contributes a pair, although neither
    value is a string. *)
Lemma load_pairs_takes_non_strings :
  load_pairs
    (one_file "dataset.json" (JArray [JObject [("aCommit", JInt 1); ("name", JNull)]]))
    ["dataset.json"] = Ok {[ (ANum 1, ANone) ]} /\
  ~ exists commit name,
      string_entry (JObject [("aCommit", JInt 1); ("name", JNull)]) commit name.
Proof.
  split.
  - rewrite (load_pairs_decoded _ _ _ (open_one_file _ _)). simpl.
    by rewrite union_empty_r_L.
  - intros (commit & name & members & [= <-] & Ha & _). discriminate Ha.
Qed.

(** A list or a dict under one of the two keys cannot be hashed: the
    entry is not passed over, the load ends in [TypeError]. *)
Example load_pairs_unhashable :
  load_pairs
    (one_file "dataset.json"
       (JArray [JObject [("aCommit", JArray [JString "c1"]); ("name", JString "t1")]]))
    ["dataset.json"] = Raise TypeError.
Proof. by rewrite (load_pairs_decoded _ _ _ (open_one_file _ _)). Qed.

(** Entries with strings under both keys always load. *)
Lemma load_pairs_string_entries fs p entries :
  open fs p = Ok (Decoded (JArray entries)) ->
  (forall e a n, e ∈ entries -> has_both_keys e a n ->
                 exists commit name, a = JString commit /\ n = JString name) ->
  exists s, load_pairs fs p = Ok s.
Proof.
  intros Hopen Hstr. rewrite (load_pairs_decoded _ _ _ Hopen). simpl.
  apply collect_total. intros e a n Hin He. apply entry_fields_Some in He.
  destruct (Hstr e a n Hin He) as (c & m & -> & ->).
  split; eexists; reflexivity.
Qed.

(** C8. An array in which an entry comes a second time, with the same
    commit identifier and name, loads to what the array without the
    second one loads to. *)
Theorem load_pairs_duplicate fs p fs' p' l1 l2 l3 e1 e2 commit name :
  string_entry e1 commit name ->
  string_entry e2 commit name ->
  open fs p = Ok (Decoded (JArray (l1 ++ e1 :: l2 ++ e2 :: l3))) ->
  open fs' p' = Ok (Decoded (JArray (l1 ++ e1 :: l2 ++ l3))) ->
  load_pairs fs p = load_pairs fs' p'.
Proof.
  intros H1 H2 Hopen Hopen'.
  rewrite (load_pairs_decoded _ _ _ Hopen), (load_pairs_decoded _ _ _ Hopen'). simpl.
  rewrite !collect_app. destruct (collect l1 ∅) as [s1| |]; simpl; try done.
  pose proof H1 as E1. apply entry_fields_Some in E1. rewrite E1. simpl.
  rewrite !collect_app.
  destruct (collect l2 ({[(AStr commit, AStr name)]} ∪ s1)) as [s2| |] eqn:E2; simpl; try done.
  apply (collect_known e2 commit name l3 s2 H2).
  apply (collect_subseteq _ _ _ E2). set_solver.
Qed.

Lemma load_pairs_duplicate_witness :
  load_pairs (one_file "gold.json" (JArray [entry "c1" "t1"; entry "c1" "t1"])) ["gold.json"]
  = load_pairs (one_file "mine.json" (JArray [entry "c1" "t1"])) ["mine.json"].
Proof.
  apply (load_pairs_duplicate _ _ _ _ [] [] [] (entry "c1" "t1") (entry "c1" "t1") "c1" "t1").
  - eexists. repeat split; reflexivity.
  - eexists. repeat split; reflexivity.
  - reflexivity.
  - reflexivity.
Defined.

(** The one-element set such an array loads to. *)
Example duplicate_entries_load_once :
  load_pairs (one_file "gold.json" (JArray [entry "c1" "t1"; entry "c1" "t1"])) ["gold.json"]
  = Ok {[ (AStr "c1", AStr "t1") ]}.
Proof.
  rewrite (load_pairs_decoded _ _ _ (open_one_file _ _)). simpl. f_equal; set_solver.
Qed.

(* ================================================================== *)
(** * [ensure_file] and the failures of loading *)

(** The process ends with status 0 exactly when the call returned. *)
Lemma exit_status_zero {A} (o : outcome A) :
  exit_status o = 0%Z <-> exists a, o = Ok a.
Proof.
  destruct o; simpl; split; try done; eauto; by intros [].
Qed.

Lemma ensure_file_present fs p :
  path_exists fs p = true -> ensure_file fs p = Ok tt.
Proof. unfold ensure_file. by intros ->. Qed.

(** The file and its parent are both missing: the message names the path. *)
Lemma ensure_file_missing_no_parent fs p :
  path_exists fs p = false ->
  path_exists fs (parent p) = false ->
  ensure_file fs p = Exit ("[ERR] File not found: " +:+ path_str p +:+ "").
Proof. unfold ensure_file. by intros -> ->. Qed.

(** The file is missing and its parent is a directory: the message names
    the path and lists the parent's entries. *)
Lemma ensure_file_missing_parent_dir fs p entries :
  path_exists fs p = false ->
  stat fs (parent p) = Found (Dir entries) ->
  ensure_file fs p =
    Exit ("[ERR] File not found: " +:+ path_str p +:+
          nl +:+ "[HINT] Contents of " +:+ path_str (parent p) +:+ ":" +:+
          nl +:+ "  " +:+ String.concat (nl +:+ "  ") (sorted (map fst entries))).
Proof.
  intros Hp Hparent. unfold ensure_file. rewrite Hp. simpl.
  unfold path_exists, iterdir. by rewrite Hparent.
Qed.

(** The file is missing and its parent is a regular file: listing the
    parent raises, and no message of the script is printed. *)
Lemma ensure_file_missing_parent_file fs p body :
  stat fs (parent p) = Found (File body) ->
  path_exists fs p = false ->
  ensure_file fs p = Raise (NotADirectoryError (parent p)).
Proof.
  intros Hparent Hp. unfold ensure_file. rewrite Hp. simpl.
  unfold path_exists, iterdir. by rewrite Hparent.
Qed.

Lemma load_pairs_missing fs p :
  stat fs p = ENOENT ->
  load_pairs fs p = Exit ("[ERR] File not found: " +:+ path_str p).
Proof. unfold load_pairs, open. by intros ->. Qed.

Lemma load_pairs_invalid_json fs p diag :
  open fs p = Ok (Undecodable diag) ->
  load_pairs fs p =
    Exit ("[ERR] Invalid JSON in " +:+ path_str p +:+ ": " +:+ diag).
Proof. unfold load_pairs. by intros ->. Qed.

Lemma load_pairs_Ok_exists fs p s :
  load_pairs fs p = Ok s -> path_exists fs p = true.
Proof.
  unfold load_pairs, open, path_exists.
  destruct (stat fs p) as [[body|]| |]; try done.
Qed.

(** [main] when both files are named on the command line. *)
Lemma main_explicit fs a c gold_path mine_path :
  gold a = Some gold_path -> mine a = Some mine_path ->
  main fs a c =
    (obind (ensure_file fs gold_path) (fun _ =>
     obind (ensure_file fs mine_path) (fun _ =>
     obind (load_pairs fs gold_path) (fun gold_set =>
     obind (load_pairs fs mine_path) (fun mine_set =>
     Ok (diff_sets gold_set mine_set))))),
     {| pending := pending c;
        printed := printed c ++ ["[INFO] GOLD: " +:+ path_str gold_path;
                                 "[INFO] MINE: " +:+ path_str mine_path] |}).
Proof.
  intros Hg Hm. unfold main, bind, ret, print, lift, resolve. rewrite Hg, Hm. simpl.
  rewrite <- app_assoc. simpl.
  destruct (ensure_file fs gold_path); simpl; try done.
  destruct (ensure_file fs mine_path); simpl; try done.
  destruct (load_pairs fs gold_path); simpl; try done.
  destruct (load_pairs fs mine_path); simpl; done.
Qed.

(** With both files named, a comparison is returned only when both exist
    and both load. *)
Lemma main_explicit_Ok fs a c gold_path mine_path r c' :
  gold a = Some gold_path -> mine a = Some mine_path ->
  main fs a c = (Ok r, c') ->
  path_exists fs gold_path = true /\ path_exists fs mine_path = true /\
  exists gold_set mine_set,
    load_pairs fs gold_path = Ok gold_set /\
    load_pairs fs mine_path = Ok mine_set /\
    r = diff_sets gold_set mine_set.
Proof.
  intros Hg Hm. rewrite (main_explicit _ _ _ _ _ Hg Hm).
  destruct (ensure_file fs gold_path) as [[]| |]; simpl; try done.
  destruct (ensure_file fs mine_path) as [[]| |]; simpl; try done.
  destruct (load_pairs fs gold_path) as [g| |] eqn:Eg; simpl; try done.
  destruct (load_pairs fs mine_path) as [m| |] eqn:Em; simpl; try done.
  intros [= <- <-]. eauto 10 using load_pairs_Ok_exists.
Qed.

(** C5. The GOLD path lies under [NOTES.txt], a regular file. The file
    does not exist, yet neither [ensure_file] nor [load_pairs] ends with
    the message that names the path: both raise [NotADirectoryError], and
    so does [main], with status 1, also when the path comes from the
    menus. *)
Theorem missing_file_under_a_file :
  path_exists sample_fs under_a_file = false /\
  exit_status
    (main sample_fs (explicit_args under_a_file sample_dataset) (Console [] [])).1 = 1%Z /\
  ensure_file sample_fs under_a_file = Raise (NotADirectoryError (parent under_a_file)) /\
  load_pairs sample_fs under_a_file = Raise (NotADirectoryError under_a_file) /\
  (main sample_fs (explicit_args under_a_file sample_dataset) (Console [] [])).1
    = Raise (NotADirectoryError (parent under_a_file)) /\
  (main sample_fs (menu_args sample_dataset) (Console ["2"; "1"; "1"] [])).1
    = Raise (NotADirectoryError (parent under_a_file)).
Proof. repeat split; vm_compute; reflexivity. Qed.

(** The failures the script reports itself, on the sample file system:
    a missing file in a directory, a missing file under a missing
    directory, and a file that is not JSON. *)
Example main_reports_missing_file :
  (main sample_fs
     (explicit_args ["repoMinedTarget"; "zoe"; "dataset.json"] sample_dataset)
     (Console [] [])).1
  = Exit ("[ERR] File not found: /repoMinedTarget/zoe/dataset.json" +:+
          nl +:+ "[HINT] Contents of /repoMinedTarget/zoe:" +:+ nl +:+ "  ").
Proof. vm_compute. reflexivity. Qed.

Example main_reports_missing_directory :
  (main sample_fs
     (explicit_args ["repoMinedTarget"; "bob"; "acme"; "dataset.json"] sample_dataset)
     (Console [] [])).1
  = Exit "[ERR] File not found: /repoMinedTarget/bob/acme/dataset.json".
Proof. vm_compute. reflexivity. Qed.

Example main_reports_invalid_json :
  (main sample_fs
     (explicit_args ["repoMinedTarget"; "README.md"] sample_dataset)
     (Console [] [])).1
  = Exit "[ERR] Invalid JSON in /repoMinedTarget/README.md: Expecting value: line 1 column 1 (char 0)".
Proof. vm_compute. reflexivity. Qed.

(** C9. A file whose document is an object or a string loads to the empty
    set, and [main] goes on to compare with that side empty. *)
Theorem load_pairs_object_or_string fs p data :
  open fs p = Ok (Decoded data) ->
  (exists members, data = JObject members) \/ (exists s, data = JString s) ->
  load_pairs fs p = Ok ∅ /\
  forall a c other other_set,
    load_pairs fs other = Ok other_set ->
    (gold a = Some p -> mine a = Some other ->
     exists c', main fs a c = (Ok (diff_sets ∅ other_set), c')) /\
    (gold a = Some other -> mine a = Some p ->
     exists c', main fs a c = (Ok (diff_sets other_set ∅), c')).
Proof.
  intros Hopen Hshape.
  assert (Hload : load_pairs fs p = Ok ∅).
  { rewrite (load_pairs_decoded _ _ _ Hopen).
    destruct Hshape as [[members ->]|[s ->]]; simpl.
    - induction (dict_keys members) as [|k ks IH]; simpl; done.
    - induction (String.list_ascii_of_string s) as [|ch chs IH]; simpl; done. }
  split; [done|]. intros a c other other_set Hother.
  pose proof (ensure_file_present _ _ (load_pairs_Ok_exists _ _ _ Hload)) as Ep.
  pose proof (ensure_file_present _ _ (load_pairs_Ok_exists _ _ _ Hother)) as Eo.
  split; intros Hg Hm; rewrite (main_explicit _ _ _ _ _ Hg Hm);
    rewrite Ep, Eo, Hload, Hother; simpl; eauto.
Qed.

Lemma load_pairs_object_or_string_witness :
  load_pairs (one_file "dataset.json" (JObject [("aCommit", JString "c1"); ("name", JString "t1")]))
    ["dataset.json"] = Ok ∅ /\
  forall a c other other_set,
    load_pairs (one_file "dataset.json" (JObject [("aCommit", JString "c1"); ("name", JString "t1")]))
      other = Ok other_set ->
    (gold a = Some ["dataset.json"] -> mine a = Some other ->
     exists c',
       main (one_file "dataset.json" (JObject [("aCommit", JString "c1"); ("name", JString "t1")]))
         a c = (Ok (diff_sets ∅ other_set), c')) /\
    (gold a = Some other -> mine a = Some ["dataset.json"] ->
     exists c',
       main (one_file "dataset.json" (JObject [("aCommit", JString "c1"); ("name", JString "t1")]))
         a c = (Ok (diff_sets other_set ∅), c')).
Proof.
  apply (load_pairs_object_or_string
           (one_file "dataset.json" (JObject [("aCommit", JString "c1"); ("name", JString "t1")]))
           ["dataset.json"]
           (JObject [("aCommit", JString "c1"); ("name", JString "t1")])).
  - reflexivity.
  - left. eexists. reflexivity.
Defined.

(* ================================================================== *)
(** * [choose_from_list] *)

(** Nothing to choose from: the script exits, with the title in the
    message, before it prints or reads anything. *)
Lemma choose_from_list_empty title c :
  choose_from_list title [] c
  = (Exit ("[ERR] No options found for " +:+ title +:+ "."), c).
Proof. reflexivity. Qed.

(** A line that is a number between 1 and the number of items selects the
    item at that place. *)
Lemma choose_loop_select items line rest out idx :
  isdigit (strip line) = true ->
  int (strip line) = Ok idx ->
  (1 <= idx <= N.of_nat (length items))%N ->
  exists it,
    items !! (N.to_nat idx - 1)%nat = Some it /\
    choose_loop items (line :: rest) out
    = (Ok it,
       Console rest
         (out ++ ["Enter number (1-" +:+ str_of_nat (length items) +:+ "): "])).
Proof.
  intros Hd Hi [Hlo Hhi]. simpl. rewrite Hd, Hi.
  destruct (N.leb_spec 1 idx); [|lia]. destruct (N.leb_spec idx (N.of_nat (length items))); [|lia].
  simpl. destruct (lookup_lt_is_Some_2 items (N.to_nat idx - 1)) as [it Hit]; [lia|].
  rewrite Hit. eauto.
Qed.

(** A line that is not made of digits is answered by the next prompt. *)
Lemma choose_loop_not_digits items line rest out :
  isdigit (strip line) = false ->
  choose_loop items (line :: rest) out
  = choose_loop items rest
      (out ++ ["Enter number (1-" +:+ str_of_nat (length items) +:+ "): ";
               "Invalid choice, try again."]).
Proof. intros Hd. simpl. by rewrite Hd. Qed.

(** So is a number outside the range. *)
Lemma choose_loop_out_of_range items line rest out idx :
  isdigit (strip line) = true ->
  int (strip line) = Ok idx ->
  (idx < 1 \/ N.of_nat (length items) < idx)%N ->
  choose_loop items (line :: rest) out
  = choose_loop items rest
      (out ++ ["Enter number (1-" +:+ str_of_nat (length items) +:+ "): ";
               "Invalid choice, try again."]).
Proof.
  intros Hd Hi Hr. simpl. rewrite Hd, Hi.
  destruct (N.leb_spec 1 idx), (N.leb_spec idx (N.of_nat (length items))); simpl; try done; lia.
Qed.

(** A line [isdigit] accepts and [int] rejects ends the loop. *)
Lemma choose_loop_rejected_digits items line rest out :
  isdigit (strip line) = true ->
  int (strip line) = Raise ValueError ->
  choose_loop items (line :: rest) out
  = (Raise ValueError,
     Console rest
       (out ++ ["Enter number (1-" +:+ str_of_nat (length items) +:+ "): "])).
Proof. intros Hd Hi. simpl. by rewrite Hd, Hi. Qed.

(** The subscript [items[idx - 1]] is always in range. *)
Lemma choose_loop_no_IndexError items lines out :
  (choose_loop items lines out).1 <> Raise IndexError.
Proof.
  revert out. induction lines as [|line rest IH]; intros out; simpl; [done|].
  destruct (isdigit (strip line)); [|apply IH].
  destruct (int (strip line)) as [idx|e|msg] eqn:Hi; simpl.
  - destruct (N.leb_spec 1 idx); simpl; [|apply IH].
    destruct (N.leb_spec idx (N.of_nat (length items))); simpl; [|apply IH].
    destruct (lookup_lt_is_Some_2 items (N.to_nat idx - 1)) as [it ->]; [lia|done].
  - unfold int in Hi. destruct (strip line); [by injection Hi as <-|].
    destruct (int_digits _ _); [|by injection Hi as <-].
    destruct (_ <? _)%nat; [|done]. by injection Hi as <-.
  - done.
Qed.

(** When [int] accepts every line [isdigit] accepts, the loop ends with
    an item of the list, or with [EOFError] once the input is used up. *)
Lemma choose_loop_outcome items lines out :
  Forall (fun line => isdigit (strip line) = true ->
                      exists idx, int (strip line) = Ok idx) lines ->
  (exists it, it ∈ items /\ (choose_loop items lines out).1 = Ok it) \/
  (choose_loop items lines out).1 = Raise EOFError.
Proof.
  intros Hlines. revert out.
  induction Hlines as [|line rest Hline _ IH]; intros out; simpl; [by right|].
  destruct (isdigit (strip line)); [|apply IH].
  destruct Hline as [idx ->]; [done|].
  destruct (N.leb_spec 1 idx); simpl; [|apply IH].
  destruct (N.leb_spec idx (N.of_nat (length items))); simpl; [|apply IH].
  destruct (lookup_lt_is_Some_2 items (N.to_nat idx - 1)) as [it Hit]; [lia|].
  rewrite Hit. left. exists it. split; [|done]. by eapply list_elem_of_lookup_2.
Qed.

(** C6. The line holding the superscript two is not numeric, yet it is not
    answered by another prompt: [isdigit] accepts it, [int] rejects it, and
    the chooser ends in [ValueError] with the valid line ["1"] unread. *)
Theorem choose_from_list_superscript_digit :
  isdigit superscript_two = true /\
  int superscript_two = Raise ValueError /\
  choose_from_list "GOLD student (miner)" ["alice"; "zoe"]
    (Console [superscript_two; "1"] [])
  = (Raise ValueError,
     Console ["1"]
       [nl +:+ "Select GOLD student (miner):"; "  1) alice"; "  2) zoe";
        "Enter number (1-2): "]).
Proof. repeat split; vm_compute; reflexivity. Qed.

(** On the same menu, a word and a number out of range are answered by
    the prompt again, and the padded line [" 2 "] selects the second
    item. *)
Example choose_from_list_retries :
  choose_from_list "GOLD student (miner)" ["alice"; "zoe"]
    (Console ["zoe"; "3"; " 2 "; "1"] [])
  = (Ok "zoe",
     Console ["1"]
       [nl +:+ "Select GOLD student (miner):"; "  1) alice"; "  2) zoe";
        "Enter number (1-2): "; "Invalid choice, try again.";
        "Enter number (1-2): "; "Invalid choice, try again.";
        "Enter number (1-2): "]).
Proof. vm_compute. reflexivity. Qed.

(* ================================================================== *)
(** * The scenarios of the specification *)

Example scenario_1 :
  exists r,
    scenario (JArray [entry "c1" "t1"]) (JArray [entry "c1" "t1"]) = Ok r /\
    size (matched r) = 1 /\ size (missing r) = 0 /\ size (extra r) = 0.
Proof. eexists. split; [reflexivity|]. vm_compute. done. Qed.

Example scenario_2 :
  exists r,
    scenario (JArray [entry "c1" "t1"]) (JArray []) = Ok r /\
    elements (missing r) = [(AStr "c1", AStr "t1")] /\ size (extra r) = 0.
Proof. eexists. split; [reflexivity|]. vm_compute. done. Qed.

Example scenario_3 :
  exists r,
    scenario (JArray []) (JArray [entry "c2" "t2"]) = Ok r /\
    elements (extra r) = [(AStr "c2", AStr "t2")] /\ size (missing r) = 0.
Proof. eexists. split; [reflexivity|]. vm_compute. done. Qed.

(* ================================================================== *)
(** * More on [load_pairs] *)

(** The accumulator only adds to what the entries give. *)
Lemma collect_acc l acc :
  collect l acc = obind (collect l ∅) (fun s => Ok (s ∪ acc)).
Proof.
  revert acc. induction l as [|e l IH]; intros acc; simpl.
  - f_equal. set_solver.
  - destruct (entry_fields e) as [[a n]|]; [|apply IH].
    destruct (py_hash a) as [ka|]; [|done]. destruct (py_hash n) as [kn|]; [|done].
    rewrite (IH ({[(ka, kn)]} ∪ acc)), (IH ({[(ka, kn)]} ∪ ∅)).
    destruct (collect l ∅) as [s| |]; simpl; [|done..]. f_equal. set_solver.
Qed.

Lemma collect_perm l l' acc : l ≡ₚ l' -> collect l acc = collect l' acc.
Proof.
  intros Hp. revert acc.
  induction Hp as [|x l l' _ IH|x y l|l l' l'' _ IH1 _ IH2]; intros acc; simpl.
  - done.
  - destruct (entry_fields x) as [[a n]|]; [|apply IH].
    destruct (py_hash a), (py_hash n); auto.
  - destruct (entry_fields x) as [[a n]|], (entry_fields y) as [[b m]|]; try done.
    destruct (py_hash a) as [ka|], (py_hash n) as [kn|],
      (py_hash b) as [kb|], (py_hash m) as [km|]; try done.
    f_equal. set_solver.
  - by rewrite IH1.
Qed.

Lemma collect_size l acc s :
  collect l acc = Ok s -> size s <= length l + size acc.
Proof.
  revert acc. induction l as [|e l IH]; intros acc; simpl.
  - intros [= <-]. lia.
  - destruct (entry_fields e) as [[a n]|].
    + destruct (py_hash a) as [ka|]; [|done]. destruct (py_hash n) as [kn|]; [|done].
      intros H. apply IH in H.
      rewrite size_union_alt, size_singleton in H.
      assert (Hsub : acc ∖ {[(ka, kn)]} ⊆ acc) by set_solver.
      apply subseteq_size in Hsub. lia.
    + intros H. apply IH in H. lia.
Qed.


Lemma collect_not_Exit l acc msg : collect l acc <> Exit msg.
Proof.
  revert acc. induction l as [|x l IH]; intros acc; simpl; [done|].
  destruct (entry_fields x) as [[a n]|]; [|apply IH].
  destruct (py_hash a); [|done]. destruct (py_hash n); [apply IH|done].
Qed.


(** X1. The loaded set does not depend on the order of the entries in the
    array. *)
Theorem load_pairs_permutation fs p fs' p' entries entries' :
  open fs p = Ok (Decoded (JArray entries)) ->
  open fs' p' = Ok (Decoded (JArray entries')) ->
  entries ≡ₚ entries' ->
  load_pairs fs p = load_pairs fs' p'.
Proof.
  intros H H' Hp. rewrite (load_pairs_decoded _ _ _ H), (load_pairs_decoded _ _ _ H').
  simpl. by apply collect_perm.
Qed.

Lemma load_pairs_permutation_witness :
  load_pairs (one_file "gold.json" (JArray [entry "c1" "t1"; JNull; entry "c2" "t2"]))
    ["gold.json"]
  = load_pairs (one_file "mine.json" (JArray [entry "c2" "t2"; entry "c1" "t1"; JNull]))
      ["mine.json"].
Proof.
  apply (load_pairs_permutation _ _ _ _
           [entry "c1" "t1"; JNull; entry "c2" "t2"]
           [entry "c2" "t2"; entry "c1" "t1"; JNull]).
  - reflexivity.
  - reflexivity.
  - apply (Permutation_app_comm [entry "c1" "t1"; JNull] [entry "c2" "t2"]).
Defined.

(** X2. An array that is two arrays one after the other loads to the
    union of what the two load to, and fails when either of them fails. *)
Theorem load_pairs_app fs p fs1 p1 fs2 p2 l1 l2 :
  open fs1 p1 = Ok (Decoded (JArray l1)) ->
  open fs2 p2 = Ok (Decoded (JArray l2)) ->
  open fs p = Ok (Decoded (JArray (l1 ++ l2))) ->
  load_pairs fs p =
    obind (load_pairs fs1 p1) (fun s1 =>
    obind (load_pairs fs2 p2) (fun s2 => Ok (s1 ∪ s2))).
Proof.
  intros H1 H2 H.
  rewrite (load_pairs_decoded _ _ _ H), (load_pairs_decoded _ _ _ H1),
    (load_pairs_decoded _ _ _ H2). simpl.
  rewrite collect_app. destruct (collect l1 ∅) as [s1| |]; simpl; [|done..].
  rewrite collect_acc. destruct (collect l2 ∅) as [s2| |]; simpl; [|done..].
  f_equal. set_solver.
Qed.

Lemma load_pairs_app_witness :
  load_pairs (one_file "all.json" (JArray ([entry "c1" "t1"] ++ [entry "c2" "t2"])))
    ["all.json"]
  = obind (load_pairs (one_file "a.json" (JArray [entry "c1" "t1"])) ["a.json"])
      (fun s1 =>
       obind (load_pairs (one_file "b.json" (JArray [entry "c2" "t2"])) ["b.json"])
         (fun s2 => Ok (s1 ∪ s2))).
Proof.
  apply (load_pairs_app _ _ _ _ _ _ [entry "c1" "t1"] [entry "c2" "t2"]);
    reflexivity.
Defined.

(** X3. The loaded set has at most as many pairs as the array has
    entries. *)
Theorem load_pairs_size fs p entries s :
  open fs p = Ok (Decoded (JArray entries)) ->
  load_pairs fs p = Ok s ->
  size s <= length entries.
Proof.
  intros H. rewrite (load_pairs_decoded _ _ _ H). simpl.
  intros Hs. apply collect_size in Hs. rewrite size_empty in Hs. lia.
Qed.

Lemma load_pairs_size_witness :
  size ({[ (AStr "c1", AStr "t1") ]} ∪ ({[ (AStr "c1", AStr "t1") ]} ∪ ∅) : dataset)
  <= length [entry "c1" "t1"; entry "c1" "t1"; JInt 3].
Proof.
  apply (load_pairs_size
           (one_file "gold.json" (JArray [entry "c1" "t1"; entry "c1" "t1"; JInt 3]))
           ["gold.json"]).
  - reflexivity.
  - reflexivity.
Defined.

(** X4. A document that is null, a boolean or a number cannot be iterated:
    [load_pairs] raises [TypeError], and [main] ends with that exception
    instead of a message of its own. *)
Theorem load_pairs_scalar_document fs p data :
  open fs p = Ok (Decoded data) ->
  data = JNull \/ (exists b, data = JBool b) \/ (exists n, data = JInt n) ->
  load_pairs fs p = Raise TypeError /\
  forall a c mine_path,
    gold a = Some p -> mine a = Some mine_path ->
    ensure_file fs mine_path = Ok tt ->
    (main fs a c).1 = Raise TypeError /\ exit_status (main fs a c).1 = 1%Z.
Proof.
  intros Hopen Hdata.
  assert (Hload : load_pairs fs p = Raise TypeError).
  { rewrite (load_pairs_decoded _ _ _ Hopen).
    by destruct Hdata as [->|[[b ->]|[n ->]]]. }
  split; [done|]. intros a c mine_path Hg Hm Hmine.
  rewrite (main_explicit _ _ _ _ _ Hg Hm). simpl.
  rewrite ensure_file_present, Hmine, Hload; [done|].
  unfold path_exists. unfold open in Hopen. by destruct (stat fs p) as [[|]| |].
Qed.

Lemma load_pairs_scalar_document_witness :
  load_pairs (scenario_fs JNull (JArray [])) ["gold.json"] = Raise TypeError /\
  forall a c mine_path,
    gold a = Some ["gold.json"] -> mine a = Some mine_path ->
    ensure_file (scenario_fs JNull (JArray [])) mine_path = Ok tt ->
    (main (scenario_fs JNull (JArray [])) a c).1 = Raise TypeError /\
    exit_status (main (scenario_fs JNull (JArray [])) a c).1 = 1%Z.
Proof.
  apply (load_pairs_scalar_document (scenario_fs JNull (JArray [])) ["gold.json"] JNull).
  - reflexivity.
  - left. reflexivity.
Defined.






(* ================================================================== *)
(** * More on [ensure_file] *)

Lemma prefix_append s t : String.prefix s (s +:+ t) = true.
Proof.
  induction s as [|a s IH]; simpl; [by destruct t|].
  by destruct (ascii_dec a a).
Qed.

Lemma ensure_file_absent fs p :
  path_exists fs p = false -> ensure_file fs p <> Ok tt.
Proof.
  unfold ensure_file. intros ->. simpl.
  destruct (path_exists fs (parent p)); [|done].
  by destruct (iterdir fs (parent p)).
Qed.

(** X7. [ensure_file] returns exactly when the path exists. *)
Theorem ensure_file_Ok_iff fs p :
  ensure_file fs p = Ok tt <-> path_exists fs p = true.
Proof.
  split; [|apply ensure_file_present].
  destruct (path_exists fs p) eqn:E; [done|].
  intros H. by apply ensure_file_absent in E.
Qed.

(** X8. A path that is a directory passes [ensure_file]; [load_pairs]
    then raises [IsADirectoryError], and so does [main]. *)
Theorem directory_as_dataset fs p entries :
  stat fs p = Found (Dir entries) ->
  ensure_file fs p = Ok tt /\
  load_pairs fs p = Raise (IsADirectoryError p) /\
  forall a c mine_path,
    gold a = Some p -> mine a = Some mine_path ->
    ensure_file fs mine_path = Ok tt ->
    (main fs a c).1 = Raise (IsADirectoryError p).
Proof.
  intros H.
  assert (He : ensure_file fs p = Ok tt).
  { apply ensure_file_present. unfold path_exists. by rewrite H. }
  assert (Hl : load_pairs fs p = Raise (IsADirectoryError p)).
  { unfold load_pairs, open. by rewrite H. }
  repeat split; [done..|]. intros a c mine_path Hg Hm Hmine.
  rewrite (main_explicit _ _ _ _ _ Hg Hm). simpl. by rewrite He, Hmine, Hl.
Qed.

Lemma directory_as_dataset_witness :
  ensure_file sample_fs ["repoMinedTarget"; "zoe"] = Ok tt /\
  load_pairs sample_fs ["repoMinedTarget"; "zoe"]
    = Raise (IsADirectoryError ["repoMinedTarget"; "zoe"]) /\
  forall a c mine_path,
    gold a = Some ["repoMinedTarget"; "zoe"] -> mine a = Some mine_path ->
    ensure_file sample_fs mine_path = Ok tt ->
    (main sample_fs a c).1 = Raise (IsADirectoryError ["repoMinedTarget"; "zoe"]).
Proof.
  apply (directory_as_dataset sample_fs ["repoMinedTarget"; "zoe"] []).
  reflexivity.
Defined.

(** X9. Whenever [ensure_file] exits, its message starts with the error
    tag and the missing path. *)
Theorem ensure_file_exit_message fs p msg :
  ensure_file fs p = Exit msg ->
  String.prefix ("[ERR] File not found: " +:+ path_str p) msg = true.
Proof.
  assert (Hpre : forall hint,
    String.prefix ("[ERR] File not found: " +:+ path_str p)
      ("[ERR] File not found: " +:+ path_str p +:+ hint) = true).
  { intros hint. exact (prefix_append ("[ERR] File not found: " +:+ path_str p) hint). }
  unfold ensure_file. destruct (path_exists fs p); simpl; [done|].
  destruct (path_exists fs (parent p)); simpl.
  - unfold iterdir. destruct (stat fs (parent p)) as [[|ps]| |]; simpl; try done.
    intros [= <-]. apply Hpre.
  - intros [= <-]. apply Hpre.
Qed.

Lemma ensure_file_exit_message_witness :
  String.prefix
    ("[ERR] File not found: " +:+ path_str ["repoMinedTarget"; "bob"; "dataset.json"])
    "[ERR] File not found: /repoMinedTarget/bob/dataset.json" = true.
Proof.
  apply (ensure_file_exit_message sample_fs ["repoMinedTarget"; "bob"; "dataset.json"]).
  vm_compute. reflexivity.
Defined.

(* ================================================================== *)
(** * More on [choose_from_list] *)

Lemma int_cases s : (exists n, int s = Ok n) \/ int s = Raise ValueError.
Proof.
  unfold int. destruct s; [by right|].
  destruct (int_digits _ _); [|by right].
  destruct (_ <? _)%nat; eauto.
Qed.

Lemma choose_loop_cases items lines out :
  (exists it, it ∈ items /\ (choose_loop items lines out).1 = Ok it) \/
  (choose_loop items lines out).1 = Raise ValueError \/
  (choose_loop items lines out).1 = Raise EOFError.
Proof.
  revert out. induction lines as [|line rest IH]; intros out; simpl; [auto|].
  destruct (isdigit (strip line)); [|apply IH].
  destruct (int_cases (strip line)) as [[idx ->]| ->]; [|auto].
  destruct (N.leb_spec 1 idx); simpl; [|apply IH].
  destruct (N.leb_spec idx (N.of_nat (length items))); simpl; [|apply IH].
  destruct (lookup_lt_is_Some_2 items (N.to_nat idx - 1)) as [it Hit]; [lia|].
  rewrite Hit. left. exists it. split; [|done]. by eapply list_elem_of_lookup_2.
Qed.

Lemma choose_from_list_Ok fs_title items c it c' :
  choose_from_list fs_title items c = (Ok it, c') -> it ∈ items.
Proof.
  destruct items as [|i0 items]; [done|]. unfold choose_from_list. intros H.
  destruct (choose_loop_cases (i0 :: items) (pending c)
              (printed c ++ [nl +:+ "Select " +:+ fs_title +:+ ":"] ++ menu 1 (i0 :: items)))
    as [(it' & Hin & E)|[E|E]]; rewrite H in E; simpl in E; congruence.
Qed.

(** X10. The chooser ends in one of four ways: it exits when there is
    nothing to choose from, it returns an item of the list, it raises
    [ValueError], or it raises [EOFError]. It raises nothing else, and
    what it returns is never outside the list. *)
Theorem choose_from_list_outcome title items c :
  (items = [] /\
   (choose_from_list title items c).1
   = Exit ("[ERR] No options found for " +:+ title +:+ ".")) \/
  (items <> [] /\
   ((exists it, it ∈ items /\ (choose_from_list title items c).1 = Ok it) \/
    (choose_from_list title items c).1 = Raise ValueError \/
    (choose_from_list title items c).1 = Raise EOFError)).
Proof.
  destruct items as [|i0 items]; [by left|]. right. split; [done|].
  apply choose_loop_cases.
Qed.



(** ** The number shown in the menu is the number to type *)

Lemma ascii_digits_string_of_uint d :
  ascii_digits (DecimalString.NilEmpty.string_of_uint d) = true.
Proof.
  unfold ascii_digits. induction d; simpl; try done.
Qed.

Lemma string_of_uint_to_uint_nonempty n : str_of_nat n <> EmptyString.
Proof.
  unfold str_of_nat. destruct (Nat.to_uint n) eqn:E; simpl; try done.
  pose proof (DecimalNat.Unsigned.of_to n) as H. rewrite E in H. simpl in H.
  subst n. discriminate E.
Qed.

Lemma ascii_digits_isdigit s :
  ascii_digits s = true -> s <> EmptyString -> isdigit s = true.
Proof.
  unfold ascii_digits, isdigit. destruct s as [|c s]; [done|]. intros H _.
  revert H. generalize (String.list_ascii_of_string (String c s)).
  induction l as [|x l IH]; simpl; [done|].
  intros [Hx Hl]%andb_prop. rewrite (IH Hl), andb_true_r.
  unfold decimal_value in Hx. unfold isdigit_char.
  by destruct ((48 <=? N_of_ascii x)%N && (N_of_ascii x <=? 57)%N).
Qed.

Lemma ascii_digit_not_space c :
  (match decimal_value c with Some _ => true | None => false end) = true ->
  isspace_char c = false.
Proof.
  unfold decimal_value, isspace_char.
  destruct (N.leb_spec 48 (N_of_ascii c)); simpl; [|done].
  destruct (N.leb_spec (N_of_ascii c) 57); simpl; [|done]. intros _.
  repeat match goal with
  | |- context [(?a <=? ?b)%N] => destruct (N.leb_spec a b); try lia
  | |- context [(?a =? ?b)%N] => destruct (N.eqb_spec a b); try lia
  end; done.
Qed.

Lemma ascii_digits_lstrip s : ascii_digits s = true -> lstrip s = s.
Proof.
  destruct s as [|c s]; [done|]. unfold ascii_digits. simpl.
  intros [Hc _]%andb_prop. by rewrite (ascii_digit_not_space _ Hc).
Qed.

Lemma ascii_digits_rev_app s t :
  ascii_digits s = true -> ascii_digits t = true ->
  ascii_digits (String.rev_app s t) = true.
Proof.
  revert t. induction s as [|c s IH]; intros t; simpl; [done|].
  unfold ascii_digits at 1. simpl. intros [Hc Hs]%andb_prop Ht.
  apply IH; [done|]. unfold ascii_digits. simpl. by rewrite Hc.
Qed.

Lemma rev_app_rev_app s t u :
  String.rev_app (String.rev_app s t) u = String.rev_app t (s +:+ u).
Proof.
  revert t u. induction s as [|c s IH]; intros t u; simpl; [done|].
  by rewrite IH.
Qed.

Lemma string_rev_rev s : String.rev (String.rev s) = s.
Proof.
  unfold String.rev. rewrite rev_app_rev_app. simpl.
  induction s as [|c s IH]; [done|].
  change (String c (s +:+ "") = String c s). by rewrite IH.
Qed.

Lemma ascii_digits_strip s : ascii_digits s = true -> strip s = s.
Proof.
  intros H. unfold strip, rstrip. rewrite (ascii_digits_lstrip _ H).
  rewrite ascii_digits_lstrip; [apply string_rev_rev|].
  by apply ascii_digits_rev_app.
Qed.

Lemma int_digits_string_of_uint d a :
  int_digits (DecimalString.NilEmpty.string_of_uint d) (N.of_nat a)
  = Some (N.of_nat (Nat.of_uint_acc d a)).
Proof.
  revert a. induction d as [|d IH|d IH|d IH|d IH|d IH|d IH|d IH|d IH|d IH|d IH];
    intros a; simpl; [done|..];
    rewrite <- IH; f_equal; rewrite Nat.tail_mul_spec; lia.
Qed.

Lemma int_str_of_nat n :
  String.length (str_of_nat n) <= int_max_str_digits ->
  int (str_of_nat n) = Ok (N.of_nat n).
Proof.
  intros Hlen. unfold int.
  destruct (str_of_nat n) as [|c s] eqn:E; [by apply string_of_uint_to_uint_nonempty in E|].
  rewrite <- E.
  pose proof (int_digits_string_of_uint (Nat.to_uint n) 0) as Hd.
  change (Nat.of_uint_acc (Nat.to_uint n) 0) with (Nat.of_uint (Nat.to_uint n)) in Hd.
  rewrite DecimalNat.Unsigned.of_to in Hd. change (N.of_nat 0) with 0%N in Hd.
  fold (str_of_nat n) in Hd. rewrite Hd.
  destruct (Nat.ltb_spec int_max_str_digits (String.length (str_of_nat n))) as [Hlt|];
    [rewrite E in Hlt; lia|done].
Qed.

Lemma menu_lookup i k items :
  menu k items !! i
  = (fun it => "  " +:+ str_of_nat (k + i) +:+ ") " +:+ it) <$> items !! i.
Proof.
  revert i k. induction items as [|it items IH]; intros i k; simpl; [done|].
  destruct i as [|i]; simpl.
  - by rewrite Nat.add_0_r.
  - rewrite IH. by rewrite Nat.add_succ_r.
Qed.

(** X12. The menu shows each item next to its place in the list counted
    from 1, and a line holding that number, as [str] prints it, makes the
    chooser return that item. *)
Theorem choose_from_list_shown_number title items i it rest out :
  items !! i = Some it ->
  String.length (str_of_nat (S i)) <= int_max_str_digits ->
  menu 1 items !! i = Some ("  " +:+ str_of_nat (S i) +:+ ") " +:+ it) /\
  (choose_from_list title items (Console (str_of_nat (S i) :: rest) out)).1 = Ok it /\
  pending (choose_from_list title items (Console (str_of_nat (S i) :: rest) out)).2 = rest.
Proof.
  intros Hit Hlen. split; [by rewrite menu_lookup, Hit|].
  destruct items as [|i0 items]; [done|].
  change (choose_from_list title (i0 :: items) (Console (str_of_nat (S i) :: rest) out))
    with (choose_loop (i0 :: items) (str_of_nat (S i) :: rest)
            (out ++ [nl +:+ "Select " +:+ title +:+ ":"] ++ menu 1 (i0 :: items))).
  pose proof (ascii_digits_string_of_uint (Nat.to_uint (S i))) as Hd.
  fold (str_of_nat (S i)) in Hd.
  destruct (choose_loop_select (i0 :: items) (str_of_nat (S i)) rest
              (out ++ [nl +:+ "Select " +:+ title +:+ ":"] ++ menu 1 (i0 :: items))
              (N.of_nat (S i))) as (it' & Hit' & ->).
  - rewrite (ascii_digits_strip _ Hd).
    apply ascii_digits_isdigit; [done|apply string_of_uint_to_uint_nonempty].
  - rewrite (ascii_digits_strip _ Hd). by apply int_str_of_nat.
  - apply lookup_lt_Some in Hit. lia.
  - replace (N.to_nat (N.of_nat (S i)) - 1) with i in Hit' by lia.
    simpl. split; [congruence|done].
Qed.

Lemma choose_from_list_shown_number_witness :
  menu 1 ["alice"; "zoe"] !! 1%nat = Some ("  " +:+ str_of_nat 2 +:+ ") " +:+ "zoe") /\
  (choose_from_list "GOLD student (miner)" ["alice"; "zoe"]
     (Console (str_of_nat 2 :: ["1"]) [])).1 = Ok "zoe" /\
  pending (choose_from_list "GOLD student (miner)" ["alice"; "zoe"]
             (Console (str_of_nat 2 :: ["1"]) [])).2 = ["1"].
Proof.
  apply (choose_from_list_shown_number "GOLD student (miner)" ["alice"; "zoe"] 1 "zoe").
  - reflexivity.
  - vm_compute. lia.
Defined.

(* ================================================================== *)
(** * More on [list_dirs] and [discover] *)

Lemma stat_join n p seg :
  stat n (join p seg) =
    match stat n p with
    | Found (Dir entries) =>
        match dir_entry seg entries with
        | Some child => Found child
        | None => ENOENT
        end
    | Found (File _) => ENOTDIR
    | ENOENT => ENOENT
    | ENOTDIR => ENOTDIR
    end.
Proof.
  unfold join. revert n. induction p as [|s p IH]; intros n; simpl.
  - destruct n as [body|entries]; [done|]. by destruct (dir_entry seg entries).
  - destruct n as [body|entries]; [done|]. destruct (dir_entry s entries); [apply IH|done].
Qed.

Lemma dir_entry_elem_of name child entries :
  (name, child) ∈ entries -> is_Some (dir_entry name entries).
Proof.
  induction entries as [|[k n] entries IH]; simpl.
  - by intros ?%elem_of_nil.
  - intros [[= <- <-]|Hin]%elem_of_cons.
    + rewrite String.eqb_refl. eauto.
    + destruct (String.eqb name k); [eauto|by apply IH].
Qed.

Lemma visible_entry_exists fs dir name :
  visible_entry fs dir name -> path_exists fs (join dir name) = true.
Proof.
  intros (entries & child & Hdir & Hin & _). unfold path_exists.
  rewrite stat_join, Hdir.
  by destruct (dir_entry_elem_of _ _ _ Hin) as [c ->].
Qed.

Lemma list_dirs_Ok_visible fs p names name :
  list_dirs fs p = Ok names -> name ∈ names -> visible_entry fs p name.
Proof.
  intros H Hin. pose proof (list_dirs_drops_hidden _ _ _ _ H Hin) as Hdot.
  unfold list_dirs, iterdir in H.
  destruct (stat fs p) as [[|entries]| |] eqn:E; simpl in H; try done.
  injection H as <-. rewrite sorted_Permutation in Hin.
  apply list_elem_of_In, in_map_iff in Hin as ([n child] & <- & Hin).
  apply filter_In in Hin as [Hin _]. exists entries, child.
  by rewrite <- list_elem_of_In in Hin.
Qed.

(** X13. The candidates of a directory are exactly the names of its
    entries that do not start with a dot, directories and regular files
    alike. *)
Theorem list_dirs_candidates fs p entries :
  stat fs p = Found (Dir entries) ->
  exists names,
    list_dirs fs p = Ok names /\
    forall name,
      name ∈ names <->
      (exists child, (name, child) ∈ entries) /\ String.prefix "." name = false.
Proof.
  intros H. rewrite (list_dirs_dir _ _ _ H). eexists. split; [done|].
  intros name. rewrite sorted_Permutation, list_elem_of_In, in_map_iff. split.
  - intros ([n child] & <- & [Hin Hdot]%filter_In). simpl in *. split.
    + exists child. by apply list_elem_of_In.
    + by destruct (String.prefix "." n).
  - intros [[child Hin] Hdot]. exists (name, child). split; [done|].
    apply filter_In. split; [by apply list_elem_of_In|]. simpl. by rewrite Hdot.
Qed.

Lemma list_dirs_candidates_witness :
  exists names,
    list_dirs sample_fs ["repoMinedTarget"; "alice"] = Ok names /\
    forall name,
      name ∈ names <->
      (exists child,
         (name, child) ∈
           [("acme",
             Dir [("widgets",
                   Dir [("dataset.json",
                         File (Decoded (JArray [entry "c1" "t1"; entry "c2" "t2"])))]);
                  ("NOTES.txt",
                   File (Undecodable "Expecting value: line 1 column 1 (char 0)"))])]) /\
      String.prefix "." name = false.
Proof.
  apply (list_dirs_candidates sample_fs ["repoMinedTarget"; "alice"]).
  reflexivity.
Defined.

Lemma lift_Ok {A} (o : outcome A) c a c' : lift o c = (Ok a, c') -> o = Ok a /\ c' = c.
Proof. unfold lift. by intros [= -> ->]. Qed.

Lemma ret_Ok {A} (x : A) c a c' : ret x c = (Ok a, c') -> a = x /\ c' = c.
Proof. unfold ret. by intros [= -> ->]. Qed.

(** One level of [discover]: a segment that is given is kept, a segment
    that is chosen is a visible entry of the directory listed. *)
Lemma discover_level fs dir given title c seg c' :
  match given with
  | None => let* names := lift (list_dirs fs dir) in choose_from_list title names
  | Some s => ret s
  end c = (Ok seg, c') ->
  match given with
  | Some s => seg = s
  | None => visible_entry fs dir seg
  end.
Proof.
  destruct given as [s|].
  - by intros [-> _]%ret_Ok.
  - intros (names & c1 & [Hl ->]%lift_Ok & Hc)%bind_Ok.
    apply choose_from_list_Ok in Hc. by eapply list_dirs_Ok_visible.
Qed.

(** X14. What [discover] returns: a segment given by the caller comes
    back as it is; a segment picked from a menu is a visible entry of the
    directory that was listed, so the path down to it exists. *)
Theorem discover_segments fs root student owner repo side_label c s o r c' :
  discover fs root student owner repo side_label c = (Ok (s, o, r), c') ->
  match student with
  | Some s0 => s = s0
  | None => visible_entry fs root s /\ path_exists fs (join root s) = true
  end /\
  match owner with
  | Some o0 => o = o0
  | None => visible_entry fs (join root s) o /\
            path_exists fs (join (join root s) o) = true
  end /\
  match repo with
  | Some r0 => r = r0
  | None => visible_entry fs (join (join root s) o) r /\
            path_exists fs (join (join (join root s) o) r) = true
  end.
Proof.
  unfold discover. intros H.
  apply bind_Ok in H as (s' & c1 & Hs & H).
  apply bind_Ok in H as (o' & c2 & Ho & H).
  apply bind_Ok in H as (r' & c3 & Hr & H).
  apply ret_Ok in H as [[= <- <- <-] _].
  apply discover_level in Hs, Ho, Hr.
  repeat split.
  - destruct student; [done|]. eauto using visible_entry_exists.
  - destruct owner; [done|]. eauto using visible_entry_exists.
  - destruct repo; [done|]. eauto using visible_entry_exists.
Qed.

Lemma discover_segments_witness :
  "alice" = "alice" /\
  (visible_entry sample_fs (join ["repoMinedTarget"] "alice") "acme" /\
   path_exists sample_fs (join (join ["repoMinedTarget"] "alice") "acme") = true) /\
  (visible_entry sample_fs (join (join ["repoMinedTarget"] "alice") "acme") "widgets" /\
   path_exists sample_fs
     (join (join (join ["repoMinedTarget"] "alice") "acme") "widgets") = true).
Proof.
  apply (discover_segments sample_fs ["repoMinedTarget"] (Some "alice") None None "GOLD"
           (Console ["1"; "2"] []) "alice" "acme" "widgets"
           (Console []
              [nl +:+ "Select GOLD repo owner/organization:"; "  1) acme";
               "Enter number (1-1): ";
               nl +:+ "Select GOLD repository name:"; "  1) NOTES.txt"; "  2) widgets";
               "Enter number (1-2): "])).
  vm_compute. reflexivity.
Defined.

(** X15. When the directory of the student that was given cannot be
    listed, because it is missing or is a regular file, [discover] ends
    with the exception of the listing before it prints or reads
    anything. *)
Theorem discover_owner_listing_fails fs root s repo side_label c e :
  iterdir fs (join root s) = Raise e ->
  discover fs root (Some s) None repo side_label c = (Raise e, c).
Proof.
  intros H. unfold discover, bind, ret, lift, list_dirs. by rewrite H.
Qed.

Lemma discover_owner_listing_fails_witness :
  discover sample_fs ["repoMinedTarget"] (Some "README.md") None None "GOLD"
    (Console ["1"] [])
  = (Raise (NotADirectoryError (join ["repoMinedTarget"] "README.md")), Console ["1"] []).
Proof.
  apply (discover_owner_listing_fails sample_fs ["repoMinedTarget"] "README.md").
  reflexivity.
Defined.

(** X16. In a directory whose entries all start with a dot, an empty one
    included, there is nothing to choose: [discover] exits with the title
    of the first menu and reads nothing. *)
Theorem discover_nothing_visible fs root entries owner repo side_label c :
  stat fs root = Found (Dir entries) ->
  (forall name child, (name, child) ∈ entries -> String.prefix "." name = true) ->
  discover fs root None owner repo side_label c
  = (Exit ("[ERR] No options found for " +:+ (side_label +:+ " student (miner)") +:+ "."),
     c).
Proof.
  intros H Hdot. unfold discover, bind, lift. rewrite (list_dirs_dir _ _ _ H).
  replace (List.filter (fun d => negb (String.prefix "." d.1)) entries) with
    (@nil (string * node)); [done|].
  symmetry. clear H. induction entries as [|[n child] entries IH]; simpl; [done|].
  rewrite (Hdot n child); [|by left]. simpl. apply IH.
  intros name ch Hin. apply (Hdot name ch). by right.
Qed.

Lemma discover_nothing_visible_witness :
  discover sample_fs ["repoMinedTarget"; "zoe"] None None None "MINE" (Console ["1"] [])
  = (Exit ("[ERR] No options found for " +:+ ("MINE" +:+ " student (miner)") +:+ "."),
     Console ["1"] []).
Proof.
  apply (discover_nothing_visible sample_fs ["repoMinedTarget"; "zoe"] []).
  - reflexivity.
  - intros name child Hin. by apply elem_of_nil in Hin.
Defined.

(* ================================================================== *)
(** * More on [main] *)

Lemma bind_ext {A B} (m : M A) (k1 k2 : A -> M B) c :
  (forall a c1, k1 a c1 = k2 a c1) -> bind m k1 c = bind m k2 c.
Proof. intros H. unfold bind. destruct (m c) as [[a|e|msg] c1]; [apply H|done..]. Qed.

Lemma bind_cong {A B} (m1 m2 : M A) (k : A -> M B) c :
  m1 c = m2 c -> bind m1 k c = bind m2 k c.
Proof. unfold bind. by intros ->. Qed.

Lemma bind_Exit {A B} (m : M A) (k : A -> M B) c msg c' :
  bind m k c = (Exit msg, c') ->
  m c = (Exit msg, c') \/ exists a c1, m c = (Ok a, c1) /\ k a c1 = (Exit msg, c').
Proof.
  unfold bind. destruct (m c) as [[a|e|m0] c1]; intros H.
  - right. eauto.
  - discriminate H.
  - left. by injection H as -> ->.
Qed.

(** X17. Three positional arguments stand for the MINE file
    [<mine root>/<first>/<second>/<third>/dataset.json]: when the MINE
    root exists and no MINE option is given, [main] behaves as with [-m]
    set to that path, and asks nothing about MINE. *)
Theorem main_positionals fs a c s o r :
  mine a = None ->
  mine_student a = None -> mine_owner a = None -> mine_repo a = None ->
  positional a = [s; o; r] ->
  path_exists fs (mine_root a) = true ->
  main fs a c = main fs (with_mine a (resolve_dataset_path (mine_root a) s o r)) c.
Proof.
  intros Hm Hs Ho Hr Hpos Hroot. unfold main, with_mine. simpl.
  rewrite Hm, Hs, Ho, Hr, Hpos.
  apply bind_ext. intros gold_path c1. apply bind_cong.
  unfold resolve. rewrite Hroot. reflexivity.
Qed.

Lemma main_positionals_witness :
  main sample_fs positional_args (Console [] [])
  = main sample_fs
      (with_mine positional_args
         (resolve_dataset_path (mine_root positional_args) "alice" "acme" "widgets"))
      (Console [] []).
Proof.
  apply (main_positionals sample_fs positional_args (Console [] [])
           "alice" "acme" "widgets"); reflexivity.
Defined.

(** X18. A MINE root that does not exist stops [main] with a message
    naming it, before the two paths are printed and before the GOLD file
    is looked at, whether that file exists or not. *)
Theorem main_mine_root_missing fs a c gold_path :
  gold a = Some gold_path ->
  mine a = None ->
  path_exists fs (mine_root a) = false ->
  main fs a c = (Exit ("[ERR] MINE root not found: " +:+ path_str (mine_root a)), c).
Proof.
  intros Hg Hm Hroot. unfold main, bind, ret, sys_exit, lift, resolve.
  by rewrite Hg, Hm, Hroot.
Qed.

Lemma main_mine_root_missing_witness :
  main sample_fs mine_root_missing_args (Console ["1"] [])
  = (Exit ("[ERR] MINE root not found: " +:+ path_str (mine_root mine_root_missing_args)),
     Console ["1"] []).
Proof.
  apply (main_mine_root_missing sample_fs mine_root_missing_args (Console ["1"] [])
           ["nowhere"; "dataset.json"]); reflexivity.
Defined.

(** X19. A GOLD root that does not exist stops [main] at once, with a
    message naming it; nothing is printed and nothing is read. *)
Theorem main_gold_root_missing fs a c :
  gold a = None ->
  path_exists fs (gold_root a) = false ->
  main fs a c = (Exit ("[ERR] GOLD root not found: " +:+ path_str (gold_root a)), c).
Proof.
  intros Hg Hroot. unfold main, bind, sys_exit, lift, resolve.
  by rewrite Hg, Hroot.
Qed.

Lemma main_gold_root_missing_witness :
  main sample_fs gold_root_missing_args (Console ["1"] [])
  = (Exit ("[ERR] GOLD root not found: " +:+ path_str (gold_root gold_root_missing_args)),
     Console ["1"] []).
Proof.
  apply (main_gold_root_missing sample_fs gold_root_missing_args (Console ["1"] []));
    reflexivity.
Defined.

(** ** Every exit carries the error tag *)

Lemma choose_from_list_Exit title items c msg c' :
  choose_from_list title items c = (Exit msg, c') ->
  String.prefix "[ERR] " msg = true.
Proof.
  destruct items as [|i0 items]; [by intros [= <- _]|]. unfold choose_from_list. intros H.
  destruct (choose_loop_cases (i0 :: items) (pending c)
              (printed c ++ [nl +:+ "Select " +:+ title +:+ ":"] ++ menu 1 (i0 :: items)))
    as [(it & _ & E)|[E|E]]; rewrite H in E; discriminate E.
Qed.

Lemma list_dirs_not_Exit fs p msg : list_dirs fs p <> Exit msg.
Proof.
  unfold list_dirs, iterdir. by destruct (stat fs p) as [[|]| |].
Qed.

Lemma discover_level_Exit fs dir given title c msg c' :
  match given with
  | None => let* names := lift (list_dirs fs dir) in choose_from_list title names
  | Some s => ret s
  end c = (Exit msg, c') ->
  String.prefix "[ERR] " msg = true.
Proof.
  destruct given as [s|]; [done|].
  intros [H|(names & c1 & _ & H)]%bind_Exit.
  - unfold lift in H. injection H as H _. by apply list_dirs_not_Exit in H.
  - by apply choose_from_list_Exit in H.
Qed.

Lemma discover_Exit fs root student owner repo side_label c msg c' :
  discover fs root student owner repo side_label c = (Exit msg, c') ->
  String.prefix "[ERR] " msg = true.
Proof.
  unfold discover.
  intros [H|(s & c1 & _ & [H|(o & c2 & _ & [H|(r & c3 & _ & H)]%bind_Exit)]%bind_Exit)]%bind_Exit;
    try (by apply discover_level_Exit in H).
  done.
Qed.

Lemma ensure_file_Exit fs p msg :
  ensure_file fs p = Exit msg -> String.prefix "[ERR] " msg = true.
Proof.
  unfold ensure_file. destruct (path_exists fs p); simpl; [done|].
  destruct (path_exists fs (parent p)); simpl.
  - unfold iterdir. destruct (stat fs (parent p)) as [[|ps]| |]; simpl; try done.
    by intros [= <-].
  - by intros [= <-].
Qed.

Lemma load_pairs_Exit fs p msg :
  load_pairs fs p = Exit msg -> String.prefix "[ERR] " msg = true.
Proof.
  unfold load_pairs, open.
  destruct (stat fs p) as [[[data|diag]|entries]| |]; simpl; try done.
  - destruct (py_iter data) as [xs| |] eqn:E; simpl; [|done|by destruct data].
    intros H. by apply collect_not_Exit in H.
  - by intros [= <-].
  - by intros [= <-].
Qed.

Lemma lift_Exit {A} (o : outcome A) c msg c' :
  lift o c = (Exit msg, c') -> o = Exit msg.
Proof. unfold lift. by intros [= -> _]. Qed.

(** X20. Whenever [main] ends through [sys.exit], the message starts with
    the tag [[ERR]]. *)
Theorem main_exit_tagged fs a c msg :
  (main fs a c).1 = Exit msg -> String.prefix "[ERR] " msg = true.
Proof.
  destruct (main fs a c) as [o c'] eqn:H. simpl. intros ->. unfold main in H.
  apply bind_Exit in H as [H|(gold_path & c1 & _ & H)].
  { destruct (gold a); [done|].
    destruct (negb (path_exists fs (resolve (gold_root a)))); [by injection H as <- _|].
    apply bind_Exit in H as [H|([[gs go] gr] & c1 & _ & H)]; [|done].
    by apply discover_Exit in H. }
  apply bind_Exit in H as [H|(mine_path & c2 & _ & H)].
  { destruct (mine a); [done|].
    destruct (negb (path_exists fs (resolve (mine_root a)))); [by injection H as <- _|].
    apply bind_Exit in H as [H|([[ms mo] mr] & c2 & _ & H)]; [|done].
    by apply discover_Exit in H. }
  apply bind_Exit in H as [H|(_ & c3 & _ & H)]; [done|].
  apply bind_Exit in H as [H|(_ & c4 & _ & H)]; [done|].
  apply bind_Exit in H as [H|(_ & c5 & _ & H)].
  { apply lift_Exit in H. by apply ensure_file_Exit in H. }
  apply bind_Exit in H as [H|(_ & c6 & _ & H)].
  { apply lift_Exit in H. by apply ensure_file_Exit in H. }
  apply bind_Exit in H as [H|(gold_set & c7 & _ & H)].
  { apply lift_Exit in H. by apply load_pairs_Exit in H. }
  apply bind_Exit in H as [H|(mine_set & c8 & _ & H)].
  { apply lift_Exit in H. by apply load_pairs_Exit in H. }
  done.
Qed.

Lemma main_exit_tagged_witness :
  String.prefix "[ERR] "
    ("[ERR] GOLD root not found: " +:+ path_str (gold_root gold_root_missing_args)) = true.
Proof.
  apply (main_exit_tagged sample_fs gold_root_missing_args (Console [] [])).
  reflexivity.
Defined.

(* ================================================================== *)
(** * The summary and the absence of differences *)

(** X21. The summary prints six texts and reads nothing, and its numbers
    add up: the total of each side is the number matched plus the number
    found on that side only. *)
Theorem summary_counts gold_set mine_set c :
  summary gold_set mine_set c
  = (Ok tt,
     {| pending := pending c;
        printed := printed c ++
          [nl +:+ "=== Summary ===";
           "Total in GOLD:         " +:+ str_of_nat (size gold_set);
           "Total in MINE:         " +:+ str_of_nat (size mine_set);
           "Total matched:         "
             +:+ str_of_nat (size (matched (diff_sets gold_set mine_set)));
           "Missing (GOLD only):   "
             +:+ str_of_nat (size (missing (diff_sets gold_set mine_set)));
           "Extra   (MINE only):   "
             +:+ str_of_nat (size (extra (diff_sets gold_set mine_set)))] |}) /\
  size gold_set
  = size (matched (diff_sets gold_set mine_set))
    + size (missing (diff_sets gold_set mine_set)) /\
  size mine_set
  = size (matched (diff_sets gold_set mine_set))
    + size (extra (diff_sets gold_set mine_set)).
Proof.
  split; [|split].
  - unfold summary, bind, print. simpl. by rewrite <- !app_assoc.
  - simpl. rewrite <- size_union by set_solver. f_equal.
    apply set_eq. intros k. rewrite elem_of_union, elem_of_intersection, elem_of_difference.
    destruct (decide (k ∈ mine_set)); tauto.
  - simpl. rewrite <- size_union by set_solver. f_equal.
    apply set_eq. intros k. rewrite elem_of_union, elem_of_intersection, elem_of_difference.
    destruct (decide (k ∈ gold_set)); tauto.
Qed.



(* ================================================================== *)
(** * The exceptions that leave [main] *)










